(** * Synk backend: the room registry and its WebSocket message router

    A shallow embedding of [synk-backend/src/WebSocketHandler.ts] and of the
    [Room] class it drives.  The handler owns two JavaScript [Map]s
    ([rooms] and [userConnections]); every callback mutates them and writes
    frames to sockets.  Here a callback is a function from the handler state
    (and the connection's closure variables) to the new state and the list
    of socket actions it performed, in the order it performed them. *)

From stdpp Require Import gmap strings list fin_maps sorting.

Local Open Scope string_scope.
Local Open Scope Z_scope.

(** ** Data carried by a room *)

(** Modelled from the spec: the entries of [Room.users], "{id, name,
    isHost}" ([types.ts] and [Room.ts] are not among the sources). *)
Record User := {
  user_id : string;
  user_name : string;
  user_isHost : bool
}.

(** Modelled from the spec: the [song] field of an [add_song] message,
    "{title, artist, uri, ...opaque metadata}". *)
Record SongInput := {
  in_title : string;
  in_artist : string;
  in_uri : string
}.

(** Modelled from the spec: a queued song, "{id, title, artist-or-source
    metadata, uri, addedBy (display name), votedBy: set of participant
    ids}".  [votedBy] is a JavaScript [Set]: no duplicates, iterated in
    insertion order, which is what [Array.from] exposes in outgoing frames. *)
Record Song := {
  song_id : string;
  title : string;
  artist : string;
  uri : string;
  addedBy : string;
  votedBy : list string
}.

(** Modelled from the spec: the fields of a [Room].  [users] is a
    [Map<string, User>] (the handler calls [get], [size] and [forEach] on
    it): keyed by participant id and iterated in insertion order, hence an
    association list.  [createdAt] is the creation [Date] as milliseconds
    since the epoch. *)
Record Room := {
  room_id : string;
  hostId : string;
  users : list (string * User);
  queue : list Song;
  createdAt : Z
}.

(** Modelled from the spec: the snapshot shape, "{id, hostId, createdAt,
    users, queue in rank order}", which [Room.toJSON] produces and every
    state-carrying frame embeds. *)
Record Snapshot := {
  snap_id : string;
  snap_hostId : string;
  snap_createdAt : Z;
  snap_users : list User;
  snap_queue : list Song
}.

(** ** The [Room] class

    [Room.ts] is imported by the handler; its operations are the ones of the
    design document, section 4.3. *)
Module RoomOps.

(** [Map.prototype.get] on the insertion-ordered user map. *)
Fixpoint users_get (userId : string) (us : list (string * User)) : option User :=
  match us with
  | [] => None
  | (k, u) :: us' => if bool_decide (k = userId) then Some u else users_get userId us'
  end.

(** [Map.prototype.set]: an existing key keeps its position, a new key goes
    last. *)
Fixpoint users_set (userId : string) (u : User) (us : list (string * User))
  : list (string * User) :=
  match us with
  | [] => [(userId, u)]
  | (k, v) :: us' =>
      if bool_decide (k = userId) then (k, u) :: us'
      else (k, v) :: users_set userId u us'
  end.

(** [Map.prototype.delete]. *)
Definition users_delete (userId : string) (us : list (string * User))
  : list (string * User) :=
  filter (λ p, p.1 ≠ userId) us.

(** Modelled from the spec: the constructor of [Room] ([Room.ts] is not among
    the sources).  A room starts with the creator as its single user, marked
    host, an empty queue, and the creation time. *)
Definition new_Room (id hostId_ hostName : string) (now : Z) : Room :=
  {| room_id := id;
     hostId := hostId_;
     users := [(hostId_, {| user_id := hostId_; user_name := hostName; user_isHost := true |})];
     queue := [];
     createdAt := now |}.

(** Modelled from the spec: [Room.addUser] "appends to users; appended users
    are not [host]". *)
Definition addUser (userId name : string) (r : Room) : Room :=
  {| room_id := room_id r;
     hostId := hostId r;
     users := users_set userId
                {| user_id := userId; user_name := name; user_isHost := false |}
                (users r);
     queue := queue r;
     createdAt := createdAt r |}.

(** Modelled from the spec: [Room.removeUser] "removes the user. If the
    removed user was host and users is still non-empty, promotes the
    earliest-joined remaining user to host and returns its id; otherwise
    returns none".  The result pairs the room after the call with
    [result.newHost]. *)
Definition removeUser (userId : string) (r : Room) : Room * option string :=
  match users_get userId (users r) with
  | None => (r, None)
  | Some _ =>
      let rest := users_delete userId (users r) in
      if bool_decide (hostId r = userId) then
        match rest with
        | [] =>
            ({| room_id := room_id r; hostId := hostId r; users := [];
                queue := queue r; createdAt := createdAt r |}, None)
        | (k, v) :: rest' =>
            ({| room_id := room_id r;
                hostId := user_id v;
                users := (k, {| user_id := user_id v; user_name := user_name v;
                                user_isHost := true |}) :: rest';
                queue := queue r;
                createdAt := createdAt r |}, Some (user_id v))
        end
      else
        ({| room_id := room_id r; hostId := hostId r; users := rest;
            queue := queue r; createdAt := createdAt r |}, None)
  end.

(** Modelled from the spec: [Room.addSong] "assigns a fresh id, votedBy = {},
    appends to the end of the queue".  The fresh id is the one the id
    generator hands out for this call. *)
Definition addSong (freshId : string) (input : SongInput) (addedByName : string)
    (r : Room) : Room * Song :=
  let s := {| song_id := freshId; title := in_title input; artist := in_artist input;
              uri := in_uri input; addedBy := addedByName; votedBy := [] |} in
  ({| room_id := room_id r; hostId := hostId r; users := users r;
      queue := queue r ++ [s]; createdAt := createdAt r |}, s).

(** Modelled from the spec: the song a vote for [songId] is about, the first
    one in the queue carrying that id. *)
Fixpoint find_song (songId : string) (q : list Song) : option Song :=
  match q with
  | [] => None
  | s :: q' => if bool_decide (song_id s = songId) then Some s else find_song songId q'
  end.

(** Modelled from the spec: the queue after [userId] votes for [songId],
    when that vote is accepted (the body of [Room.voteSong]). *)
Fixpoint vote_in (songId userId : string) (q : list Song) : option (list Song) :=
  match q with
  | [] => None
  | s :: q' =>
      if bool_decide (song_id s = songId) then
        if bool_decide (userId ∈ votedBy s) then None
        else Some ({| song_id := song_id s; title := title s; artist := artist s;
                      uri := uri s; addedBy := addedBy s;
                      votedBy := votedBy s ++ [userId] |} :: q')
      else cons s <$> vote_in songId userId q'
  end.

(** Modelled from the spec: [Room.voteSong] "fails (false) if the song is not
    in the queue or userId already in votedBy; otherwise adds userId to
    votedBy and returns true". *)
Definition voteSong (songId userId : string) (r : Room) : Room * bool :=
  match vote_in songId userId (queue r) with
  | None => (r, false)
  | Some q' =>
      ({| room_id := room_id r; hostId := hostId r; users := users r;
          queue := q'; createdAt := createdAt r |}, true)
  end.

Definition votes (s : Song) : nat := length (votedBy s).

(** Modelled from the spec: one step of the stable ranking; puts [s] in
    front of the first song that has no more votes than [s]. *)
Fixpoint rank_insert (s : Song) (q : list Song) : list Song :=
  match q with
  | [] => [s]
  | t :: q' =>
      if bool_decide (votes t ≤ votes s)%nat then s :: t :: q'
      else t :: rank_insert s q'
  end.

(** Modelled from the spec: rank order, "descending vote count; tie-break =
    ascending insertion order". *)
Definition getSortedQueue (r : Room) : list Song :=
  foldr rank_insert [] (queue r).

(** Modelled from the spec: [Room.skipCurrentSong] "current song = the head
    of the rank-ordered queue. Removes and returns it, or none if the queue
    is empty". *)
Definition skipCurrentSong (r : Room) : Room * option Song :=
  match getSortedQueue r with
  | [] => (r, None)
  | s :: _ =>
      ({| room_id := room_id r; hostId := hostId r; users := users r;
          queue := filter (λ t, song_id t ≠ song_id s) (queue r);
          createdAt := createdAt r |}, Some s)
  end.

(** Modelled from the spec: [Room.clearQueue] "empties the queue
    unconditionally". *)
Definition clearQueue (r : Room) : Room :=
  {| room_id := room_id r; hostId := hostId r; users := users r;
     queue := []; createdAt := createdAt r |}.

(** Modelled from the spec: [Room.toJSON] (the spec's [serialize]), "ordered
    queue, user list, hostId", the queue in rank order. *)
Definition toJSON (r : Room) : Snapshot :=
  {| snap_id := room_id r;
     snap_hostId := hostId r;
     snap_createdAt := createdAt r;
     snap_users := snd <$> users r;
     snap_queue := getSortedQueue r |}.

End RoomOps.

(** ** Frames and sockets *)

(** A socket is known by its identity; whether it is open is the
    environment's business (see [Env]). *)
Definition WebSocket := nat.

(** Frames the server writes, one constructor per [type] tag. *)
Inductive ServerMessage :=
  | room_created (roomId userId : string) (room : Snapshot)
  | room_joined (roomId userId : string) (room : Snapshot)
  | user_joined (user : option User) (room : Snapshot)
  | user_left (userId : string) (userName newHost : option string) (room : Snapshot)
  | song_added (song : Song) (room : Snapshot)
  | song_voted (songId userId : string) (room : Snapshot)
  | song_skipped (skippedSong : Song) (room : Snapshot)
  | queue_cleared (room : Snapshot)
  | room_state (room : Snapshot)
  | pong
  | error (message : string)
  | server_shutdown (message : string).

(** What a callback does to the outside world: [ws.send(...)], [ws.close()]. *)
Inductive Action :=
  | Send (ws : WebSocket) (m : ServerMessage)
  | Close (ws : WebSocket).

(** Modelled from the spec: the inbound message shapes of [types.ts], as one
    JSON object read through the fields the handlers destructure.  The
    dispatcher switches on [type].  [song] is the one field a handler reads
    into ([song.title]): it is [None] when the object carries no song
    (the field is missing or null). *)
Record WebSocketMessage := {
  type : string;
  userName : string;
  roomCode : string;
  song : option SongInput;
  songId : string
}.

(** The outcome of [JSON.parse(data.toString())] followed by reading
    [message.type]: either that throws, or there is a message. *)
Inductive ParseResult :=
  | SyntaxError
  | Parsed (message : WebSocketMessage).

(** What a callback takes from outside this file: the id [uuidv4()] returns
    if the callback asks for one, the clock, each socket's
    [readyState === WebSocket.OPEN], and the queue [room.addSong(undefined,
    name)] leaves behind.  About the last, [Room.ts] is not among the
    sources and the spec does not say whether [addSong], handed no song
    object, appends an entry without metadata or fails before it touches
    the queue; every property below holds whichever it does. *)
Record Env := {
  uuidv4 : string;
  now : Z;
  readyOpen : WebSocket → bool;
  addSong_undefined : string → Room → list Song
}.

(** The two private maps of the class. *)
Record WebSocketHandler := {
  rooms : gmap string Room;
  userConnections : gmap string WebSocket
}.

(** The closure variables [userId] and [roomId] of one connection
    ([null] is [None]). *)
Record Session := {
  userId : option string;
  roomId : option string
}.

Module Handler.
Import RoomOps.

Definition constructor : WebSocketHandler :=
  {| rooms := ∅; userConnections := ∅ |}.

Definition initial_session : Session := {| userId := None; roomId := None |}.

(** The guard [if (userId && roomId)]: both variables are set and neither is
    the empty string.  Gives the two ids when it passes. *)
Definition bound (s : Session) : option (string * string) :=
  match userId s, roomId s with
  | Some u, Some r =>
      if bool_decide (u ≠ "") && bool_decide (r ≠ "") then Some (u, r) else None
  | _, _ => None
  end.

(** [excludeUserId] is an optional argument; [user.id !== undefined] holds
    for every user. *)
Definition broadcastToRoom (e : Env) (h : WebSocketHandler) (roomId_ : string)
    (message : ServerMessage) (excludeUserId : option string) : list Action :=
  match rooms h !! roomId_ with
  | None => []
  | Some room =>
      omap (λ entry : string * User,
              let user := entry.2 in
              if bool_decide (Some (user_id user) ≠ excludeUserId) then
                match userConnections h !! user_id user with
                | Some ws => if readyOpen e ws then Some (Send ws message) else None
                | None => None
                end
              else None)
           (users room)
  end.

Definition handleCreateRoom (e : Env) (ws : WebSocket) (message : WebSocketMessage)
    (h : WebSocketHandler) : WebSocketHandler * Session * list Action :=
  let userId_ := uuidv4 e in
  let roomId_ := roomCode message in
  let room := new_Room roomId_ userId_ (userName message) (now e) in
  ({| rooms := <[roomId_ := room]> (rooms h);
      userConnections := <[userId_ := ws]> (userConnections h) |},
   {| userId := Some userId_; roomId := Some roomId_ |},
   [Send ws (room_created roomId_ userId_ (toJSON room))]).

Definition handleJoinRoom (e : Env) (ws : WebSocket) (message : WebSocketMessage)
    (h : WebSocketHandler) (s : Session) : WebSocketHandler * Session * list Action :=
  match rooms h !! roomCode message with
  | None => (h, s, [Send ws (error "Room not found")])
  | Some room0 =>
      let userId_ := uuidv4 e in
      let roomId_ := roomCode message in
      let room := addUser userId_ (userName message) room0 in
      let h' := {| rooms := <[roomId_ := room]> (rooms h);
                   userConnections := <[userId_ := ws]> (userConnections h) |} in
      (h',
       {| userId := Some userId_; roomId := Some roomId_ |},
       Send ws (room_joined roomId_ userId_ (toJSON room))
         :: broadcastToRoom e h' roomId_
              (user_joined (users_get userId_ (users room)) (toJSON room))
              (Some userId_))
  end.

(** The second component is [None] when the call throws: with no song
    object in the message, [room.addSong(song, user.name)] has run and
    [song.title] in the log line that follows raises a [TypeError], before
    the broadcast. *)
Definition handleAddSong (e : Env) (message : WebSocketMessage)
    (userId_ roomId_ : string) (h : WebSocketHandler)
  : WebSocketHandler * option (list Action) :=
  match rooms h !! roomId_ with
  | None => (h, Some [])
  | Some room0 =>
      match users_get userId_ (users room0) with
      | None => (h, Some [])
      | Some user =>
          match song message with
          | Some song_ =>
              let '(room, addedSong) := addSong (uuidv4 e) song_ (user_name user) room0 in
              let h' := {| rooms := <[roomId_ := room]> (rooms h);
                           userConnections := userConnections h |} in
              (h', Some (broadcastToRoom e h' roomId_
                           (song_added addedSong (toJSON room)) None))
          | None =>
              let room := {| room_id := room_id room0; hostId := hostId room0;
                             users := users room0;
                             queue := addSong_undefined e (user_name user) room0;
                             createdAt := createdAt room0 |} in
              ({| rooms := <[roomId_ := room]> (rooms h);
                  userConnections := userConnections h |}, None)
          end
      end
  end.

(** The [try] ... [catch] of the ['message'] callback around a handler call:
    a call that throws is answered "Invalid message format" and keeps
    whatever the handler had done to the state. *)
Definition try_catch (ws : WebSocket) (r : WebSocketHandler * option (list Action))
  : WebSocketHandler * list Action :=
  match r.2 with
  | Some out => (r.1, out)
  | None => (r.1, [Send ws (error "Invalid message format")])
  end.

Definition handleVoteSong (e : Env) (ws : WebSocket) (message : WebSocketMessage)
    (userId_ roomId_ : string) (h : WebSocketHandler) : WebSocketHandler * list Action :=
  match rooms h !! roomId_ with
  | None => (h, [Send ws (error "Room not found")])
  | Some room0 =>
      let '(room, success) := voteSong (songId message) userId_ room0 in
      let h' := {| rooms := <[roomId_ := room]> (rooms h);
                   userConnections := userConnections h |} in
      if success then
        (h', broadcastToRoom e h' roomId_
               (song_voted (songId message) userId_ (toJSON room)) None)
      else
        (h', [Send ws (error "Already voted for this song")])
  end.

Definition handleSkipSong (e : Env) (ws : WebSocket) (userId_ roomId_ : string)
    (h : WebSocketHandler) : WebSocketHandler * list Action :=
  match rooms h !! roomId_ with
  | None => (h, [Send ws (error "Only host can skip songs")])
  | Some room0 =>
      if bool_decide (hostId room0 ≠ userId_) then
        (h, [Send ws (error "Only host can skip songs")])
      else
        let '(room, skippedSong) := skipCurrentSong room0 in
        let h' := {| rooms := <[roomId_ := room]> (rooms h);
                     userConnections := userConnections h |} in
        match skippedSong with
        | Some skipped =>
            (h', broadcastToRoom e h' roomId_ (song_skipped skipped (toJSON room)) None)
        | None => (h', [])
        end
  end.

Definition handleClearQueue (e : Env) (ws : WebSocket) (userId_ roomId_ : string)
    (h : WebSocketHandler) : WebSocketHandler * list Action :=
  match rooms h !! roomId_ with
  | None => (h, [Send ws (error "Only host can clear queue")])
  | Some room0 =>
      if bool_decide (hostId room0 ≠ userId_) then
        (h, [Send ws (error "Only host can clear queue")])
      else
        let room := clearQueue room0 in
        let h' := {| rooms := <[roomId_ := room]> (rooms h);
                     userConnections := userConnections h |} in
        (h', broadcastToRoom e h' roomId_ (queue_cleared (toJSON room)) None)
  end.

Definition handleGetRoomState (ws : WebSocket) (roomId_ : string)
    (h : WebSocketHandler) : WebSocketHandler * list Action :=
  match rooms h !! roomId_ with
  | None => (h, [Send ws (error "Room not found")])
  | Some room => (h, [Send ws (room_state (toJSON room))])
  end.

Definition handleUserLeave (e : Env) (userId_ roomId_ : string)
    (h : WebSocketHandler) : WebSocketHandler * list Action :=
  match rooms h !! roomId_ with
  | None => (h, [])
  | Some room0 =>
      let user := users_get userId_ (users room0) in
      let '(room, newHost) := removeUser userId_ room0 in
      let h' := {| rooms := <[roomId_ := room]> (rooms h);
                   userConnections := delete userId_ (userConnections h) |} in
      if bool_decide (length (users room) = 0%nat) then
        ({| rooms := delete roomId_ (rooms h');
            userConnections := userConnections h' |}, [])
      else
        (h', broadcastToRoom e h' roomId_
               (user_left userId_ (user_name <$> user) newHost (toJSON room)) None)
  end.

(** The test [room.users.size === 0 && room.createdAt < oneHourAgo]. *)
Definition empty_and_old (oneHourAgo : Z) (room : Room) : bool :=
  bool_decide (length (users room) = 0%nat) && bool_decide (createdAt room < oneHourAgo).

(** One turn of the [for ... of this.rooms.entries()] loop. *)
Definition cleanup_step (oneHourAgo : Z) (entry : string * Room)
    (rs : gmap string Room) : gmap string Room :=
  if empty_and_old oneHourAgo entry.2 then delete entry.1 rs else rs.

Definition cleanupEmptyRooms (e : Env) (h : WebSocketHandler) : WebSocketHandler :=
  let oneHourAgo := now e - 60 * 60 * 1000 in
  {| rooms := foldr (cleanup_step oneHourAgo) (rooms h) (map_to_list (rooms h));
     userConnections := userConnections h |}.

Definition getRoomsCount (h : WebSocketHandler) : nat := size (rooms h).
Definition getUsersCount (h : WebSocketHandler) : nat := size (userConnections h).

(** The [forEach] of [shutdown]: [ws.close()] takes the socket out of the
    OPEN state at once, so a socket registered under several ids is notified
    and closed at its first entry and skipped at the later ones.  [closed]
    holds the sockets closed so far. *)
Fixpoint shutdown_loop (e : Env) (closed : list WebSocket)
    (cs : list (string * WebSocket)) : list Action :=
  match cs with
  | [] => []
  | c :: cs' =>
      if readyOpen e c.2 && bool_decide (c.2 ∉ closed) then
        Send c.2 (server_shutdown "Server is shutting down") :: Close c.2
          :: shutdown_loop e (c.2 :: closed) cs'
      else shutdown_loop e closed cs'
  end.

Definition shutdown (e : Env) (h : WebSocketHandler) : list Action :=
  shutdown_loop e [] (map_to_list (userConnections h)).

(** The [case] labels of the switch in the ['message'] callback; the five
    that are only served to a bound session. *)
Definition known_types : list string :=
  ["join_room"; "create_room"; "add_song"; "vote_song"; "skip_song";
   "clear_queue"; "get_room_state"; "ping"].

Definition session_scoped_types : list string :=
  ["add_song"; "vote_song"; "skip_song"; "clear_queue"; "get_room_state"].

(** The session-scoped cases of the switch: call the handler when the guard
    passes, do nothing otherwise.  These handlers never touch the closure
    variables. *)
Definition guarded (s : Session) (h : WebSocketHandler)
    (k : string → string → WebSocketHandler * list Action)
  : WebSocketHandler * Session * list Action :=
  match bound s with
  | Some (u, r) => let '(h', out) := k u r in (h', s, out)
  | None => (h, s, [])
  end.

(** The ['message'] callback of [handleConnection].  The [catch] block is
    reached from the parse and from [handleAddSong]; with the other payload
    fields typed as in [WebSocketMessage] no other handler throws. *)
Definition on_message (e : Env) (ws : WebSocket) (data : ParseResult)
    (h : WebSocketHandler) (s : Session) : WebSocketHandler * Session * list Action :=
  match data with
  | SyntaxError => (h, s, [Send ws (error "Invalid message format")])
  | Parsed message =>
      let t := type message in
      if bool_decide (t = "join_room") then handleJoinRoom e ws message h s
      else if bool_decide (t = "create_room") then handleCreateRoom e ws message h
      else if bool_decide (t = "add_song") then
        guarded s h (λ u r, try_catch ws (handleAddSong e message u r h))
      else if bool_decide (t = "vote_song") then
        guarded s h (λ u r, handleVoteSong e ws message u r h)
      else if bool_decide (t = "skip_song") then
        guarded s h (λ u r, handleSkipSong e ws u r h)
      else if bool_decide (t = "clear_queue") then
        guarded s h (λ u r, handleClearQueue e ws u r h)
      else if bool_decide (t = "get_room_state") then
        guarded s h (λ _ r, handleGetRoomState ws r h)
      else if bool_decide (t = "ping") then (h, s, [Send ws pong])
      else (h, s, [Send ws (error "Unknown message type")])
  end.

(** The ['close'] callback of [handleConnection]. *)
Definition on_close (e : Env) (h : WebSocketHandler) (s : Session)
  : WebSocketHandler * list Action :=
  match bound s with
  | Some (u, r) => handleUserLeave e u r h
  | None => (h, [])
  end.

End Handler.

(** ** A running scenario

    Alice hosts ROOM1, Bob has joined, one song is queued and Alice has
    voted for it.  Sockets 1 and 2 are theirs; socket 3 is a newcomer. *)
Module Scenario.
Import RoomOps Handler.

Definition alice : User :=
  {| user_id := "u-alice"; user_name := "Alice"; user_isHost := true |}.
Definition bob : User :=
  {| user_id := "u-bob"; user_name := "Bob"; user_isHost := false |}.

Definition song1 : Song :=
  {| song_id := "s-1"; title := "Blue in Green"; artist := "Miles Davis";
     uri := "spotify:track:1"; addedBy := "Bob"; votedBy := ["u-alice"] |}.

Definition room1 : Room :=
  {| room_id := "ROOM1"; hostId := "u-alice";
     users := [("u-alice", alice); ("u-bob", bob)];
     queue := [song1]; createdAt := 1000 |}.

(** ROOM2 has a host and nothing queued. *)
Definition room2 : Room := new_Room "ROOM2" "u-dave" "Dave" 2000.

(** A room nobody is in, as the sweep looks for. *)
Definition stale : Room :=
  {| room_id := "OLD"; hostId := "u-gone"; users := []; queue := []; createdAt := 0 |}.

Definition h1 : WebSocketHandler :=
  {| rooms := <["ROOM1" := room1]> (<["ROOM2" := room2]> ∅);
     userConnections := <["u-alice" := 1%nat]> (<["u-bob" := 2%nat]> (<["u-dave" := 4%nat]> ∅)) |}.

Definition h_stale : WebSocketHandler :=
  {| rooms := <["OLD" := stale]> (rooms h1); userConnections := userConnections h1 |}.

Definition env1 : Env :=
  {| uuidv4 := "u-carol"; now := 5000; readyOpen := λ _, true;
     addSong_undefined := λ _ room, queue room |}.

Definition env_late : Env :=
  {| uuidv4 := "u-erin"; now := 4000000; readyOpen := λ _, true;
     addSong_undefined := λ _ room, queue room |}.

Definition msg (t : string) : WebSocketMessage :=
  {| type := t; userName := "Carol"; roomCode := "ROOM1";
     song := Some {| in_title := "So What"; in_artist := "Miles Davis";
                     in_uri := "spotify:track:2" |};
     songId := "s-1" |}.

Definition vote_for (sid : string) : WebSocketMessage :=
  {| type := "vote_song"; userName := ""; roomCode := "";
     song := None;
     songId := sid |}.

Definition join (code name : string) : WebSocketMessage :=
  {| type := "join_room"; userName := name; roomCode := code;
     song := None;
     songId := "" |}.

Definition as_alice : Session := {| userId := Some "u-alice"; roomId := Some "ROOM1" |}.
Definition as_bob : Session := {| userId := Some "u-bob"; roomId := Some "ROOM1" |}.
Definition as_dave : Session := {| userId := Some "u-dave"; roomId := Some "ROOM2" |}.

End Scenario.

(** ** States and frames, for the properties of the whole handler *)

Module Server.
Import RoomOps Handler.

(** The states the handler can be in: it is constructed empty, and changes
    when a frame arrives on some connection, when a connection closes, and
    when the sweep runs.  The closure variables of the connection are left
    arbitrary. *)
Inductive reachable : WebSocketHandler → Prop :=
  | reach_start : reachable constructor
  | reach_message e ws data h s :
      reachable h → reachable (on_message e ws data h s).1.1
  | reach_close e h s :
      reachable h → reachable (on_close e h s).1
  | reach_sweep e h :
      reachable h → reachable (cleanupEmptyRooms e h).

(** The room code a frame is about: the message's own [roomCode] for
    create_room and join_room, the connection's [roomId] for the rest. *)
Definition addressed (data : ParseResult) (s : Session) : option string :=
  match data with
  | Parsed m =>
      if bool_decide (type m = "join_room") || bool_decide (type m = "create_room")
      then Some (roomCode m)
      else roomId s
  | SyntaxError => roomId s
  end.

(** An action that is a frame other than [error], written to an open socket
    that [h] has registered for some user. *)
Definition delivered (e : Env) (h : WebSocketHandler) (a : Action) : Prop :=
  ∃ w message, a = Send w message ∧ (∀ t, message ≠ error t) ∧
               readyOpen e w = true ∧ ∃ uid, userConnections h !! uid = Some w.

(** [h'] differs from [h] at most in the room registered under [rid]. *)
Definition frame_of (rid : string) (h h' : WebSocketHandler) : Prop :=
  (∀ c, c ≠ rid → rooms h' !! c = rooms h !! c) ∧
  userConnections h' = userConnections h.

(** Every registered room has a user and is registered under its own id. *)
Definition store_ok (h : WebSocketHandler) : Prop :=
  map_Forall (λ code room, users room ≠ [] ∧ room_id room = code) (rooms h).

Definition notice (w : WebSocket) : list Action :=
  [Send w (server_shutdown "Server is shutting down"); Close w].

End Server.

(** Further inputs for the scenario: a session whose user is not in ROOM1, a
    session whose room is not registered, and an environment in which Bob's
    socket is no longer open. *)
Module Cases.

Definition as_stranger : Session := {| userId := Some "u-zed"; roomId := Some "ROOM1" |}.
Definition as_ghost : Session := {| userId := Some "u-bob"; roomId := Some "GONE" |}.

Definition create (code name : string) : WebSocketMessage :=
  {| type := "create_room"; userName := name; roomCode := code;
     song := None;
     songId := "" |}.

Definition add_song_without_song : WebSocketMessage :=
  {| type := "add_song"; userName := ""; roomCode := ""; song := None; songId := "" |}.

Definition env_bob_closed : Env :=
  {| uuidv4 := "u-carol"; now := 5000; readyOpen := λ w, bool_decide (w ≠ 2%nat);
     addSong_undefined := λ _ room, queue room |}.

Definition env2 : Env :=
  {| uuidv4 := "u-frank"; now := 6000; readyOpen := λ _, true;
     addSong_undefined := λ _ room, queue room |}.

End Cases.

Import RoomOps Handler.

(** * Properties *)

(** ** The dispatcher *)

Section Dispatch.
Context (e : Env) (ws : WebSocket) (m : WebSocketMessage).
Context (h : WebSocketHandler) (s : Session).

Lemma on_message_join_room :
  type m = "join_room" →
  on_message e ws (Parsed m) h s = handleJoinRoom e ws m h s.
Proof. intros Ht. unfold on_message. rewrite Ht. reflexivity. Qed.

Lemma on_message_create_room :
  type m = "create_room" →
  on_message e ws (Parsed m) h s = handleCreateRoom e ws m h.
Proof. intros Ht. unfold on_message. rewrite Ht. reflexivity. Qed.

Lemma on_message_add_song :
  type m = "add_song" →
  on_message e ws (Parsed m) h s =
  guarded s h (λ u r, try_catch ws (handleAddSong e m u r h)).
Proof. intros Ht. unfold on_message. rewrite Ht. reflexivity. Qed.

Lemma on_message_vote_song :
  type m = "vote_song" →
  on_message e ws (Parsed m) h s = guarded s h (λ u r, handleVoteSong e ws m u r h).
Proof. intros Ht. unfold on_message. rewrite Ht. reflexivity. Qed.

Lemma on_message_skip_song :
  type m = "skip_song" →
  on_message e ws (Parsed m) h s = guarded s h (λ u r, handleSkipSong e ws u r h).
Proof. intros Ht. unfold on_message. rewrite Ht. reflexivity. Qed.

Lemma on_message_clear_queue :
  type m = "clear_queue" →
  on_message e ws (Parsed m) h s = guarded s h (λ u r, handleClearQueue e ws u r h).
Proof. intros Ht. unfold on_message. rewrite Ht. reflexivity. Qed.

Lemma on_message_get_room_state :
  type m = "get_room_state" →
  on_message e ws (Parsed m) h s = guarded s h (λ _ r, handleGetRoomState ws r h).
Proof. intros Ht. unfold on_message. rewrite Ht. reflexivity. Qed.

Lemma guarded_unbound k : bound s = None → guarded s h k = (h, s, []).
Proof. intros Hb. unfold guarded. by rewrite Hb. Qed.

Lemma guarded_bound k u r :
  bound s = Some (u, r) →
  guarded s h k = ((k u r).1, s, (k u r).2).
Proof. intros Hb. unfold guarded. rewrite Hb. by destruct (k u r). Qed.

Lemma bound_unset : userId s = None ∨ roomId s = None → bound s = None.
Proof.
  unfold bound. intros [Hu | Hr].
  - by rewrite Hu.
  - rewrite Hr. by destruct (userId s).
Qed.
End Dispatch.

(** A session whose room code is the empty string does not pass the guard:
    to the dispatcher it is as good as unset. *)
Lemma bound_empty_room_code u : bound {| userId := Some u; roomId := Some "" |} = None.
Proof. unfold bound; simpl. by rewrite andb_false_r. Qed.

(** Writing a room back where it already is changes nothing. *)
Lemma store_same_room (h : WebSocketHandler) rid room :
  rooms h !! rid = Some room →
  {| rooms := <[rid := room]> (rooms h); userConnections := userConnections h |} = h.
Proof. intros Hr. destruct h as [rs cs]; simpl in *. by rewrite insert_id. Qed.

(** ** Who a broadcast reaches *)

Lemma elem_of_broadcastToRoom e (h : WebSocketHandler) rid room message exclude a :
  rooms h !! rid = Some room →
  a ∈ broadcastToRoom e h rid message exclude ↔
  ∃ k u ws, (k, u) ∈ users room ∧ Some (user_id u) ≠ exclude ∧
            userConnections h !! user_id u = Some ws ∧ readyOpen e ws = true ∧
            a = Send ws message.
Proof.
  intros Hr. unfold broadcastToRoom. rewrite Hr, list_elem_of_omap. split.
  - intros [[k u] [Hin Hsome]]. simpl in Hsome.
    case_bool_decide as Hex; [|done].
    destruct (userConnections h !! user_id u) as [w|] eqn:Hc; [|done].
    destruct (readyOpen e w) eqn:Ho; [|done].
    exists k, u, w. by simplify_eq.
  - intros (k & u & w & Hin & Hex & Hc & Ho & ->).
    exists (k, u). split; [done|]. simpl.
    rewrite bool_decide_eq_true_2 by done. by rewrite Hc, Ho.
Qed.

Lemma broadcastToRoom_only_sends e (h : WebSocketHandler) rid message exclude w :
  Close w ∉ broadcastToRoom e h rid message exclude.
Proof.
  unfold broadcastToRoom. destruct (rooms h !! rid) as [room|]; [|by apply not_elem_of_nil].
  rewrite list_elem_of_omap. intros [[k u] [_ Hs]]. simpl in Hs.
  case_bool_decide; [|done].
  destruct (userConnections h !! user_id u) as [w'|]; [|done].
  by destruct (readyOpen e w').
Qed.

(** ** create_room *)

(** [handleCreateRoom] never consults [rooms] before it stores the new room. *)
Lemma handleCreateRoom_spec e ws m (h : WebSocketHandler) :
  let room := new_Room (roomCode m) (uuidv4 e) (userName m) (now e) in
  ∃ h', handleCreateRoom e ws m h =
          (h', {| userId := Some (uuidv4 e); roomId := Some (roomCode m) |},
           [Send ws (room_created (roomCode m) (uuidv4 e) (toJSON room))]) ∧
        rooms h' !! roomCode m = Some room ∧
        (∀ c, c ≠ roomCode m → rooms h' !! c = rooms h !! c) ∧
        userConnections h' !! uuidv4 e = Some ws.
Proof.
  intros room. eexists. split; [reflexivity|]. simpl. split_and!.
  - apply lookup_insert_eq.
  - intros c Hc. by apply lookup_insert_ne.
  - apply lookup_insert_eq.
Qed.

(** C1, as stated, fails: ROOM1 is registered with Alice and Bob in it and a
    song queued; a create_room for ROOM1 from a newcomer is answered with
    room_created, not with an error, and ROOM1 now names a fresh room that
    holds the newcomer alone. *)
Lemma create_room_replaces_registered_room :
  rooms Scenario.h1 !! "ROOM1" = Some Scenario.room1 ∧
  let '(h', _, out) :=
    on_message Scenario.env1 3%nat (Parsed (Scenario.msg "create_room"))
               Scenario.h1 initial_session in
  out = [Send 3%nat (room_created "ROOM1" "u-carol"
                       (toJSON (new_Room "ROOM1" "u-carol" "Carol" 5000)))] ∧
  rooms h' !! "ROOM1" = Some (new_Room "ROOM1" "u-carol" "Carol" 5000) ∧
  rooms h' !! "ROOM1" ≠ Some Scenario.room1.
Proof.
  vm_compute. split_and!; try reflexivity. intros H. discriminate H.
Qed.

(** C1, amended: every create_room message, whether or not its roomCode is
    already registered, stores a new room with the caller as its only user
    and host under that code (in place of any room registered there before,
    all other rooms untouched), registers the caller's connection, binds the
    session, and sends one room_created reply with the new room's snapshot
    to the calling connection only; nothing is broadcast. *)
Theorem create_room_always_registers e ws m (h : WebSocketHandler) s :
  type m = "create_room" →
  let room := new_Room (roomCode m) (uuidv4 e) (userName m) (now e) in
  ∃ h', on_message e ws (Parsed m) h s =
          (h', {| userId := Some (uuidv4 e); roomId := Some (roomCode m) |},
           [Send ws (room_created (roomCode m) (uuidv4 e) (toJSON room))]) ∧
        rooms h' !! roomCode m = Some room ∧
        (∀ c, c ≠ roomCode m → rooms h' !! c = rooms h !! c) ∧
        userConnections h' !! uuidv4 e = Some ws.
Proof.
  intros Ht. rewrite on_message_create_room by done. apply handleCreateRoom_spec.
Qed.

Lemma create_room_always_registers_witness :
  type (Scenario.msg "create_room") = "create_room" ∧
  ∃ h', on_message Scenario.env1 3%nat (Parsed (Scenario.msg "create_room"))
                   Scenario.h1 initial_session =
          (h', {| userId := Some "u-carol"; roomId := Some "ROOM1" |},
           [Send 3%nat (room_created "ROOM1" "u-carol"
                          (toJSON (new_Room "ROOM1" "u-carol" "Carol" 5000)))]) ∧
        rooms h' !! "ROOM1" = Some (new_Room "ROOM1" "u-carol" "Carol" 5000) ∧
        (∀ c, c ≠ "ROOM1" → rooms h' !! c = rooms Scenario.h1 !! c) ∧
        userConnections h' !! "u-carol" = Some 3%nat.
Proof.
  split; [reflexivity|].
  apply (create_room_always_registers Scenario.env1 3%nat (Scenario.msg "create_room")
           Scenario.h1 initial_session).
  reflexivity.
Defined.

(** ** skip_song and clear_queue without the host's authority *)

Lemma handleSkipSong_not_host e ws uid rid (h : WebSocketHandler) :
  hostId <$> rooms h !! rid ≠ Some uid →
  handleSkipSong e ws uid rid h = (h, [Send ws (error "Only host can skip songs")]).
Proof.
  intros Hn. unfold handleSkipSong.
  destruct (rooms h !! rid) as [room|]; [|done].
  case_bool_decide as Hh; [done|].
  destruct (decide (hostId room = uid)) as [Heq|Hne]; [|done].
  destruct Hn. simpl. by rewrite Heq.
Qed.

Lemma handleClearQueue_not_host e ws uid rid (h : WebSocketHandler) :
  hostId <$> rooms h !! rid ≠ Some uid →
  handleClearQueue e ws uid rid h = (h, [Send ws (error "Only host can clear queue")]).
Proof.
  intros Hn. unfold handleClearQueue.
  destruct (rooms h !! rid) as [room|]; [|done].
  case_bool_decide as Hh; [done|].
  destruct (decide (hostId room = uid)) as [Heq|Hne]; [|done].
  destruct Hn. simpl. by rewrite Heq.
Qed.

(** C2: a skip_song or clear_queue from a session bound to [uid] and [rid],
    when [rid] names no room or names a room whose host is not [uid], leaves
    the handler state (every room, every queue, the connections) and the
    session as they were, and the actions are exactly one error frame to the
    calling socket: nothing is broadcast. *)
Theorem skip_clear_need_host e ws m (h : WebSocketHandler) s uid rid :
  bound s = Some (uid, rid) →
  hostId <$> rooms h !! rid ≠ Some uid →
  (type m = "skip_song" →
   on_message e ws (Parsed m) h s = (h, s, [Send ws (error "Only host can skip songs")])) ∧
  (type m = "clear_queue" →
   on_message e ws (Parsed m) h s = (h, s, [Send ws (error "Only host can clear queue")])).
Proof.
  intros Hb Hn. split; intros Ht.
  - rewrite on_message_skip_song by done.
    rewrite (guarded_bound _ _ _ uid rid) by done.
    by rewrite handleSkipSong_not_host.
  - rewrite on_message_clear_queue by done.
    rewrite (guarded_bound _ _ _ uid rid) by done.
    by rewrite handleClearQueue_not_host.
Qed.

Lemma skip_clear_need_host_witness :
  (bound Scenario.as_bob = Some ("u-bob", "ROOM1") ∧
   hostId <$> rooms Scenario.h1 !! "ROOM1" ≠ Some "u-bob") ∧
  on_message Scenario.env1 2%nat (Parsed (Scenario.msg "skip_song")) Scenario.h1 Scenario.as_bob
    = (Scenario.h1, Scenario.as_bob, [Send 2%nat (error "Only host can skip songs")]) ∧
  on_message Scenario.env1 2%nat (Parsed (Scenario.msg "clear_queue")) Scenario.h1 Scenario.as_bob
    = (Scenario.h1, Scenario.as_bob, [Send 2%nat (error "Only host can clear queue")]).
Proof.
  assert (Hb : bound Scenario.as_bob = Some ("u-bob", "ROOM1")) by reflexivity.
  assert (Hn : hostId <$> rooms Scenario.h1 !! "ROOM1" ≠ Some "u-bob")
    by (vm_compute; intros H; discriminate H).
  split; [by split|]. split.
  - apply (skip_clear_need_host Scenario.env1 2%nat (Scenario.msg "skip_song")
             Scenario.h1 Scenario.as_bob "u-bob" "ROOM1" Hb Hn).
    reflexivity.
  - apply (skip_clear_need_host Scenario.env1 2%nat (Scenario.msg "clear_queue")
             Scenario.h1 Scenario.as_bob "u-bob" "ROOM1" Hb Hn).
    reflexivity.
Defined.

(** ** Session-scoped messages on an unbound connection *)

(** C4: an add_song, vote_song, skip_song, clear_queue or get_room_state
    message on a connection whose [userId] or [roomId] is still unset does
    nothing at all: no action is emitted (no reply, no error, no broadcast)
    and neither the handler state nor the session changes. *)
Theorem unbound_session_is_ignored e ws m (h : WebSocketHandler) s :
  userId s = None ∨ roomId s = None →
  type m ∈ session_scoped_types →
  on_message e ws (Parsed m) h s = (h, s, []).
Proof.
  intros Hs Ht. apply bound_unset in Hs.
  unfold session_scoped_types in Ht. rewrite !elem_of_cons, elem_of_nil in Ht.
  destruct Ht as [Ht | [Ht | [Ht | [Ht | [Ht | []]]]]].
  - rewrite on_message_add_song by done. by apply guarded_unbound.
  - rewrite on_message_vote_song by done. by apply guarded_unbound.
  - rewrite on_message_skip_song by done. by apply guarded_unbound.
  - rewrite on_message_clear_queue by done. by apply guarded_unbound.
  - rewrite on_message_get_room_state by done. by apply guarded_unbound.
Qed.

Lemma unbound_session_is_ignored_witness :
  (userId initial_session = None ∨ roomId initial_session = None) ∧
  type (Scenario.msg "vote_song") ∈ session_scoped_types ∧
  on_message Scenario.env1 3%nat (Parsed (Scenario.msg "vote_song")) Scenario.h1 initial_session
    = (Scenario.h1, initial_session, []).
Proof.
  assert (Hs : userId initial_session = None ∨ roomId initial_session = None)
    by (left; reflexivity).
  assert (Ht : type (Scenario.msg "vote_song") ∈ session_scoped_types)
    by (unfold session_scoped_types; simpl; rewrite !elem_of_cons; tauto).
  split_and!; [exact Hs | exact Ht |].
  exact (unbound_session_is_ignored Scenario.env1 3%nat (Scenario.msg "vote_song")
           Scenario.h1 initial_session Hs Ht).
Defined.

(** ** Frames that are not messages of the protocol *)

(** C7: the callback answers every frame.  A payload that does not parse
    gets the single reply "Invalid message format"; a message whose type is
    none of the eight known ones gets the single reply "Unknown message
    type".  In both cases the reply goes to the calling socket, no socket is
    closed, the session is kept, and the handler state is untouched. *)
Theorem bad_frame_gets_error_reply e ws (h : WebSocketHandler) s :
  on_message e ws SyntaxError h s = (h, s, [Send ws (error "Invalid message format")]) ∧
  ∀ m, type m ∉ known_types →
       on_message e ws (Parsed m) h s = (h, s, [Send ws (error "Unknown message type")]).
Proof.
  split; [reflexivity|].
  intros m Hn. unfold on_message.
  repeat (case_bool_decide as Hx;
          [ exfalso; apply Hn; rewrite Hx; unfold known_types;
            rewrite !elem_of_cons; tauto | clear Hx ]).
  reflexivity.
Qed.

Lemma bad_frame_gets_error_reply_witness :
  (type (Scenario.msg "dance") ∉ known_types) ∧
  on_message Scenario.env1 2%nat SyntaxError Scenario.h1 Scenario.as_bob
    = (Scenario.h1, Scenario.as_bob, [Send 2%nat (error "Invalid message format")]) ∧
  on_message Scenario.env1 2%nat (Parsed (Scenario.msg "dance")) Scenario.h1 Scenario.as_bob
    = (Scenario.h1, Scenario.as_bob, [Send 2%nat (error "Unknown message type")]).
Proof.
  assert (Hn : type (Scenario.msg "dance") ∉ known_types).
  { unfold known_types; simpl. rewrite !elem_of_cons, elem_of_nil.
    intros H. repeat (destruct H as [H|H]; [discriminate H|]). exact H. }
  split; [exact Hn|].
  destruct (bad_frame_gets_error_reply Scenario.env1 2%nat Scenario.h1 Scenario.as_bob)
    as [Hbad Hunknown].
  split; [exact Hbad | exact (Hunknown (Scenario.msg "dance") Hn)].
Defined.

(** ** skip_song by the host with nothing queued *)

Lemma skipCurrentSong_empty room :
  queue room = [] → skipCurrentSong room = (room, None).
Proof. intros Hq. unfold skipCurrentSong, getSortedQueue. by rewrite Hq. Qed.

(** C9: a skip_song from the host of an existing room whose queue is empty
    finds nothing to skip ([skipCurrentSong] returns none) and is silent: no
    action at all is emitted (no reply to the caller, no song_skipped
    broadcast) and the handler state and session are unchanged. *)
Theorem host_skip_on_empty_queue_is_silent e ws m (h : WebSocketHandler) s uid rid room :
  bound s = Some (uid, rid) →
  type m = "skip_song" →
  rooms h !! rid = Some room →
  hostId room = uid →
  queue room = [] →
  (skipCurrentSong room).2 = None ∧
  on_message e ws (Parsed m) h s = (h, s, []).
Proof.
  intros Hb Ht Hr Hh Hq.
  pose proof (skipCurrentSong_empty room Hq) as Hskip.
  split; [by rewrite Hskip|].
  rewrite on_message_skip_song by done.
  rewrite (guarded_bound _ _ _ uid rid) by done.
  unfold handleSkipSong. rewrite Hr.
  rewrite bool_decide_eq_false_2 by (intros Hne; apply Hne; exact Hh).
  rewrite Hskip. simpl. by rewrite store_same_room.
Qed.

Lemma host_skip_on_empty_queue_is_silent_witness :
  (bound Scenario.as_dave = Some ("u-dave", "ROOM2") ∧
   rooms Scenario.h1 !! "ROOM2" = Some Scenario.room2 ∧
   hostId Scenario.room2 = "u-dave" ∧ queue Scenario.room2 = []) ∧
  (skipCurrentSong Scenario.room2).2 = None ∧
  on_message Scenario.env1 4%nat (Parsed (Scenario.msg "skip_song")) Scenario.h1 Scenario.as_dave
    = (Scenario.h1, Scenario.as_dave, []).
Proof.
  assert (Hb : bound Scenario.as_dave = Some ("u-dave", "ROOM2")) by reflexivity.
  assert (Hr : rooms Scenario.h1 !! "ROOM2" = Some Scenario.room2) by reflexivity.
  assert (Hh : hostId Scenario.room2 = "u-dave") by reflexivity.
  assert (Hq : queue Scenario.room2 = []) by reflexivity.
  split; [by split_and!|].
  exact (host_skip_on_empty_queue_is_silent Scenario.env1 4%nat (Scenario.msg "skip_song")
           Scenario.h1 Scenario.as_dave "u-dave" "ROOM2" Scenario.room2
           Hb eq_refl Hr Hh Hq).
Defined.

(** ** vote_song *)

Lemma vote_in_None sid uid q :
  vote_in sid uid q = None ↔
  find_song sid q = None ∨ ∃ sg, find_song sid q = Some sg ∧ uid ∈ votedBy sg.
Proof.
  induction q as [|t q IH]; simpl.
  - split; [by left | done].
  - case_bool_decide as Hid.
    + case_bool_decide as Hv.
      * split; [intros _; right; eauto | done].
      * split; [done|]. intros [Hf | (sg & Hf & Hin)]; [done|]. by simplify_eq.
    + by rewrite fmap_None.
Qed.

Lemma voteSong_false sid uid room :
  (voteSong sid uid room).2 = false ↔ vote_in sid uid (queue room) = None.
Proof. unfold voteSong. by destruct (vote_in sid uid (queue room)). Qed.

Lemma voteSong_false_same sid uid room :
  (voteSong sid uid room).2 = false → (voteSong sid uid room).1 = room.
Proof. unfold voteSong. by destruct (vote_in sid uid (queue room)). Qed.

Lemma voteSong_users sid uid room : users (voteSong sid uid room).1 = users room.
Proof. unfold voteSong. by destruct (vote_in sid uid (queue room)). Qed.

Lemma handleVoteSong_refused e ws m uid rid (h : WebSocketHandler) room :
  rooms h !! rid = Some room →
  (voteSong (songId m) uid room).2 = false →
  handleVoteSong e ws m uid rid h = (h, [Send ws (error "Already voted for this song")]).
Proof.
  intros Hr Hv. unfold handleVoteSong. rewrite Hr.
  pose proof (voteSong_false_same _ _ _ Hv) as Hsame.
  destruct (voteSong (songId m) uid room) as [room' ok]; simpl in *; subst.
  by rewrite store_same_room.
Qed.

Lemma handleVoteSong_accepted e ws m uid rid (h : WebSocketHandler) room :
  rooms h !! rid = Some room →
  (voteSong (songId m) uid room).2 = true →
  let room' := (voteSong (songId m) uid room).1 in
  let h' := {| rooms := <[rid := room']> (rooms h); userConnections := userConnections h |} in
  handleVoteSong e ws m uid rid h =
    (h', broadcastToRoom e h' rid (song_voted (songId m) uid (toJSON room')) None).
Proof.
  intros Hr Hv. unfold handleVoteSong. rewrite Hr.
  destruct (voteSong (songId m) uid room) as [room' ok]; simpl in *. by subst.
Qed.

(** C5: a vote_song from a session bound to [uid] and [rid], when [rid]
    names a room.  The vote is refused exactly when the song id is not in
    the queue or [uid] has already voted for that song.  An accepted vote is
    recorded in the room and song_voted (song id, user id, snapshot of the
    updated room) goes to every member with an open registered connection,
    nobody excluded, the voter among them.  A refused vote, for either
    reason alike, sends one error frame to the calling socket and nothing
    else. *)
Theorem vote_song_broadcast_or_error e ws m (h : WebSocketHandler) s uid rid room :
  bound s = Some (uid, rid) →
  type m = "vote_song" →
  rooms h !! rid = Some room →
  let vote := voteSong (songId m) uid room in
  let res := on_message e ws (Parsed m) h s in
  (vote.2 = false ↔
     find_song (songId m) (queue room) = None ∨
     ∃ sg, find_song (songId m) (queue room) = Some sg ∧ uid ∈ votedBy sg) ∧
  (vote.2 = true →
     let voted := song_voted (songId m) uid (toJSON vote.1) in
     res.1.2 = s ∧
     rooms res.1.1 !! rid = Some vote.1 ∧
     res.2 = broadcastToRoom e res.1.1 rid voted None ∧
     ∀ a, a ∈ res.2 ↔
          ∃ k u w, (k, u) ∈ users room ∧ userConnections h !! user_id u = Some w ∧
                   readyOpen e w = true ∧ a = Send w voted) ∧
  (vote.2 = false →
     res = (h, s, [Send ws (error "Already voted for this song")])).
Proof.
  intros Hb Ht Hr vote res. subst vote res.
  rewrite on_message_vote_song by done.
  rewrite (guarded_bound _ _ _ uid rid) by done.
  split_and!.
  - by rewrite voteSong_false, vote_in_None.
  - intros Hv. rewrite (handleVoteSong_accepted _ _ _ _ _ _ room) by done. simpl.
    split_and!; [done | apply lookup_insert_eq | done |].
    intros a. rewrite elem_of_broadcastToRoom by (simpl; apply lookup_insert_eq).
    simpl. rewrite voteSong_users. split.
    + intros (k & u & w & ? & ? & ? & ? & ?). by exists k, u, w.
    + intros (k & u & w & ? & ? & ? & ?). by exists k, u, w.
  - intros Hv. by rewrite (handleVoteSong_refused _ _ _ _ _ _ room).
Qed.

(** C10: when a vote_song is refused in a room that exists, the reply is the
    error frame with the text "Already voted for this song", be it that
    [uid] had voted for the song or that no song in the queue has that id;
    handler state and session are unchanged. *)
Theorem refused_vote_reply_text e ws m (h : WebSocketHandler) s uid rid room :
  bound s = Some (uid, rid) →
  type m = "vote_song" →
  rooms h !! rid = Some room →
  (find_song (songId m) (queue room) = None ∨
   ∃ sg, find_song (songId m) (queue room) = Some sg ∧ uid ∈ votedBy sg) →
  (voteSong (songId m) uid room).2 = false ∧
  on_message e ws (Parsed m) h s =
    (h, s, [Send ws (error "Already voted for this song")]).
Proof.
  intros Hb Ht Hr Hcause.
  assert (Hv : (voteSong (songId m) uid room).2 = false)
    by (by rewrite voteSong_false, vote_in_None).
  split; [done|].
  rewrite on_message_vote_song by done.
  rewrite (guarded_bound _ _ _ uid rid) by done.
  by rewrite (handleVoteSong_refused _ _ _ _ _ _ room).
Qed.

Lemma vote_song_broadcast_or_error_witness :
  (bound Scenario.as_bob = Some ("u-bob", "ROOM1") ∧
   bound Scenario.as_alice = Some ("u-alice", "ROOM1") ∧
   rooms Scenario.h1 !! "ROOM1" = Some Scenario.room1) ∧
  (let res := on_message Scenario.env1 2%nat (Parsed (Scenario.vote_for "s-1"))
                Scenario.h1 Scenario.as_bob in
   let room' := (voteSong "s-1" "u-bob" Scenario.room1).1 in
   rooms res.1.1 !! "ROOM1" = Some room' ∧
   res.2 = broadcastToRoom Scenario.env1 res.1.1 "ROOM1"
             (song_voted "s-1" "u-bob" (toJSON room')) None) ∧
  on_message Scenario.env1 1%nat (Parsed (Scenario.vote_for "s-1"))
    Scenario.h1 Scenario.as_alice
  = (Scenario.h1, Scenario.as_alice, [Send 1%nat (error "Already voted for this song")]).
Proof.
  assert (Hbob : bound Scenario.as_bob = Some ("u-bob", "ROOM1")) by reflexivity.
  assert (Halice : bound Scenario.as_alice = Some ("u-alice", "ROOM1")) by reflexivity.
  assert (Hr : rooms Scenario.h1 !! "ROOM1" = Some Scenario.room1) by reflexivity.
  split; [by split_and!|]. split.
  - destruct (vote_song_broadcast_or_error Scenario.env1 2%nat (Scenario.vote_for "s-1")
                Scenario.h1 Scenario.as_bob "u-bob" "ROOM1" Scenario.room1
                Hbob eq_refl Hr) as (_ & Haccepted & _).
    destruct (Haccepted eq_refl) as (_ & Hroom & Hout & _).
    split; [exact Hroom | exact Hout].
  - destruct (vote_song_broadcast_or_error Scenario.env1 1%nat (Scenario.vote_for "s-1")
                Scenario.h1 Scenario.as_alice "u-alice" "ROOM1" Scenario.room1
                Halice eq_refl Hr) as (_ & _ & Hrefused).
    exact (Hrefused eq_refl).
Defined.

Lemma refused_vote_reply_text_witness :
  (bound Scenario.as_alice = Some ("u-alice", "ROOM1") ∧
   rooms Scenario.h1 !! "ROOM1" = Some Scenario.room1 ∧
   find_song "s-404" (queue Scenario.room1) = None ∧
   find_song "s-1" (queue Scenario.room1) = Some Scenario.song1 ∧
   "u-alice" ∈ votedBy Scenario.song1) ∧
  on_message Scenario.env1 1%nat (Parsed (Scenario.vote_for "s-404"))
    Scenario.h1 Scenario.as_alice
  = (Scenario.h1, Scenario.as_alice, [Send 1%nat (error "Already voted for this song")]) ∧
  on_message Scenario.env1 1%nat (Parsed (Scenario.vote_for "s-1"))
    Scenario.h1 Scenario.as_alice
  = (Scenario.h1, Scenario.as_alice, [Send 1%nat (error "Already voted for this song")]).
Proof.
  assert (Halice : bound Scenario.as_alice = Some ("u-alice", "ROOM1")) by reflexivity.
  assert (Hr : rooms Scenario.h1 !! "ROOM1" = Some Scenario.room1) by reflexivity.
  assert (Hmissing : find_song "s-404" (queue Scenario.room1) = None) by reflexivity.
  assert (Hfound : find_song "s-1" (queue Scenario.room1) = Some Scenario.song1)
    by reflexivity.
  assert (Hvoted : "u-alice" ∈ votedBy Scenario.song1) by (simpl; apply list_elem_of_here).
  split; [by split_and!|]. split.
  - apply (refused_vote_reply_text Scenario.env1 1%nat (Scenario.vote_for "s-404")
             Scenario.h1 Scenario.as_alice "u-alice" "ROOM1" Scenario.room1
             Halice eq_refl Hr).
    left. exact Hmissing.
  - apply (refused_vote_reply_text Scenario.env1 1%nat (Scenario.vote_for "s-1")
             Scenario.h1 Scenario.as_alice "u-alice" "ROOM1" Scenario.room1
             Halice eq_refl Hr).
    right. exists Scenario.song1. split; [exact Hfound | exact Hvoted].
Defined.

(** ** join_room *)

Lemma users_get_set uid u us : users_get uid (users_set uid u us) = Some u.
Proof.
  induction us as [|[k v] us IH]; simpl.
  - by rewrite bool_decide_eq_true_2.
  - case_bool_decide as Hk; simpl.
    + by rewrite bool_decide_eq_true_2.
    + by rewrite bool_decide_eq_false_2.
Qed.

(** C6: a join_room for a code that names no room is answered with one
    error frame to the calling socket, nothing else changing.  For a code
    that names a room, the joiner (a fresh id, the given name, not host) is
    put into that room's users, the calling socket gets room_joined with the
    snapshot of the room including the joiner, and after it user_joined goes
    to the open registered connection of every user of the room whose id is
    not the joiner's, and to nobody else. *)
Theorem join_room_reply_and_broadcast e ws m (h : WebSocketHandler) s :
  type m = "join_room" →
  let res := on_message e ws (Parsed m) h s in
  match rooms h !! roomCode m with
  | None => res = (h, s, [Send ws (error "Room not found")])
  | Some room0 =>
      let uid := uuidv4 e in
      let room := addUser uid (userName m) room0 in
      let joiner := {| user_id := uid; user_name := userName m; user_isHost := false |} in
      let joined := user_joined (Some joiner) (toJSON room) in
      ∃ others,
        res.2 = Send ws (room_joined (roomCode m) uid (toJSON room)) :: others ∧
        res.1.2 = {| userId := Some uid; roomId := Some (roomCode m) |} ∧
        rooms res.1.1 !! roomCode m = Some room ∧
        users_get uid (users room) = Some joiner ∧
        userConnections res.1.1 !! uid = Some ws ∧
        ∀ a, a ∈ others ↔
             ∃ k u w, (k, u) ∈ users room ∧ user_id u ≠ uid ∧
                      userConnections h !! user_id u = Some w ∧
                      readyOpen e w = true ∧ a = Send w joined
  end.
Proof.
  intros Ht res. subst res. rewrite on_message_join_room by done.
  unfold handleJoinRoom.
  destruct (rooms h !! roomCode m) as [room0|] eqn:Hr; [|done].
  eexists. simpl. split; [reflexivity|].
  split_and!; [done | apply lookup_insert_eq | apply users_get_set | apply lookup_insert_eq |].
  intros a. rewrite elem_of_broadcastToRoom by (simpl; apply lookup_insert_eq).
  simpl. rewrite users_get_set. split.
  - intros (k & u & w & Hin & Hex & Hc & Ho & ->).
    assert (Hne : user_id u ≠ uuidv4 e) by congruence.
    rewrite lookup_insert_ne in Hc by done.
    by exists k, u, w.
  - intros (k & u & w & Hin & Hne & Hc & Ho & ->).
    exists k, u, w. split_and!; [done | congruence | | done | done].
    by rewrite lookup_insert_ne.
Qed.

Lemma join_room_reply_and_broadcast_witness :
  type (Scenario.join "ROOM1" "Carol") = "join_room" ∧
  (let res := on_message Scenario.env1 3%nat (Parsed (Scenario.join "NOPE" "Carol"))
                Scenario.h1 initial_session in
   res = (Scenario.h1, initial_session, [Send 3%nat (error "Room not found")])) ∧
  (let res := on_message Scenario.env1 3%nat (Parsed (Scenario.join "ROOM1" "Carol"))
                Scenario.h1 initial_session in
   let room := addUser "u-carol" "Carol" Scenario.room1 in
   ∃ others,
     res.2 = Send 3%nat (room_joined "ROOM1" "u-carol" (toJSON room)) :: others ∧
     rooms res.1.1 !! "ROOM1" = Some room).
Proof.
  split; [reflexivity|]. split.
  - exact (join_room_reply_and_broadcast Scenario.env1 3%nat (Scenario.join "NOPE" "Carol")
             Scenario.h1 initial_session eq_refl).
  - destruct (join_room_reply_and_broadcast Scenario.env1 3%nat
                (Scenario.join "ROOM1" "Carol") Scenario.h1 initial_session eq_refl)
      as (others & Hout & _ & Hroom & _).
    exists others. split; [exact Hout | exact Hroom].
Defined.

(** ** Disconnect *)

(* The dispatcher is opened through the lemmas of [Dispatch] only. *)
Arguments on_message : simpl never.

Lemma removeUser_last uid u room :
  users room = [(uid, u)] → users (removeUser uid room).1 = [].
Proof.
  intros Hu. unfold removeUser, users_delete. rewrite Hu. simpl.
  rewrite bool_decide_eq_true_2 by done.
  rewrite filter_cons_False by (simpl; intros Hne; by apply Hne).
  rewrite filter_nil. by case_bool_decide.
Qed.

Lemma handleJoinRoom_no_room e ws m (h : WebSocketHandler) s :
  rooms h !! roomCode m = None →
  handleJoinRoom e ws m h s = (h, s, [Send ws (error "Room not found")]).
Proof. intros Hr. unfold handleJoinRoom. by rewrite Hr. Qed.

(** C3: the connection bound to [uid] and [rid] closes while [rid] names a
    room.  In both cases below [uid]'s entry, and no other, leaves the
    connection registry.  If [uid] is the only user of that room, the room
    is gone from the store when the callback returns, nothing is sent, and
    a join_room for that code on the resulting state is answered "Room not
    found".  If users remain once [uid] is removed, the room stays
    registered (without [uid]) and user_left, carrying the leaver's id and
    name, the new host id if the host changed, and the snapshot, goes to
    every remaining user whose connection was registered and is open, and
    to nobody else. *)
Theorem last_leave_deletes_room_else_user_left e (h : WebSocketHandler) s uid rid room :
  bound s = Some (uid, rid) →
  rooms h !! rid = Some room →
  let room' := (removeUser uid room).1 in
  let newHost := (removeUser uid room).2 in
  let h' := (on_close e h s).1 in
  let out := (on_close e h s).2 in
  ((∃ u, users room = [(uid, u)]) →
     rooms h' !! rid = None ∧ out = [] ∧
     userConnections h' = delete uid (userConnections h) ∧
     ∀ e' ws' m s', type m = "join_room" → roomCode m = rid →
       on_message e' ws' (Parsed m) h' s' = (h', s', [Send ws' (error "Room not found")])) ∧
  (users room' ≠ [] →
     let left := user_left uid (user_name <$> users_get uid (users room)) newHost
                   (toJSON room') in
     rooms h' !! rid = Some room' ∧
     userConnections h' = delete uid (userConnections h) ∧
     out = broadcastToRoom e h' rid left None ∧
     ∀ a, a ∈ out ↔
          ∃ k u w, (k, u) ∈ users room' ∧ user_id u ≠ uid ∧
                   userConnections h !! user_id u = Some w ∧
                   readyOpen e w = true ∧ a = Send w left).
Proof.
  intros Hb Hr room' newHost h' out. subst room' newHost h' out.
  unfold on_close. rewrite Hb. unfold handleUserLeave. rewrite Hr.
  split.
  - intros [u Hu]. pose proof (removeUser_last _ _ _ Hu) as Hempty.
    destruct (removeUser uid room) as [room' newHost]; simpl in *.
    rewrite Hempty. simpl.
    assert (Hgone : delete rid (<[rid:=room']> (rooms h)) !! rid = None)
      by apply lookup_delete_eq.
    split_and!; [done | done | done |].
    intros e' ws' m s' Ht Hc. rewrite on_message_join_room by done.
    apply handleJoinRoom_no_room. simpl. by rewrite Hc.
  - intros Hrest.
    destruct (removeUser uid room) as [room' newHost]; simpl in *.
    rewrite bool_decide_eq_false_2 by (by destruct (users room')).
    simpl. split_and!; [apply lookup_insert_eq | done | done |].
    intros a. rewrite elem_of_broadcastToRoom by (simpl; apply lookup_insert_eq).
    simpl. split.
    + intros (k & u & w & Hin & _ & Hc & Ho & ->).
      apply lookup_delete_Some in Hc as [Hne Hc].
      exists k, u, w. split_and!; [done | congruence | done..].
    + intros (k & u & w & Hin & Hne & Hc & Ho & ->).
      exists k, u, w. split_and!; [done | done | | done | done].
      apply lookup_delete_Some. split; [congruence | done].
Qed.

Lemma last_leave_deletes_room_else_user_left_witness :
  (bound Scenario.as_dave = Some ("u-dave", "ROOM2") ∧
   rooms Scenario.h1 !! "ROOM2" = Some Scenario.room2 ∧
   bound Scenario.as_alice = Some ("u-alice", "ROOM1") ∧
   rooms Scenario.h1 !! "ROOM1" = Some Scenario.room1 ∧
   users (removeUser "u-alice" Scenario.room1).1 ≠ []) ∧
  (let h' := (on_close Scenario.env1 Scenario.h1 Scenario.as_dave).1 in
   rooms h' !! "ROOM2" = None ∧
   userConnections h' = delete "u-dave" (userConnections Scenario.h1) ∧
   on_message Scenario.env1 3%nat (Parsed (Scenario.join "ROOM2" "Carol")) h' initial_session
     = (h', initial_session, [Send 3%nat (error "Room not found")])) ∧
  (let h' := (on_close Scenario.env1 Scenario.h1 Scenario.as_alice).1 in
   let room' := (removeUser "u-alice" Scenario.room1).1 in
   let left := user_left "u-alice" (Some "Alice") (Some "u-bob") (toJSON room') in
   rooms h' !! "ROOM1" = Some room' ∧
   userConnections h' = delete "u-alice" (userConnections Scenario.h1) ∧
   (on_close Scenario.env1 Scenario.h1 Scenario.as_alice).2
     = broadcastToRoom Scenario.env1 h' "ROOM1" left None ∧
   Send 2%nat left ∈ (on_close Scenario.env1 Scenario.h1 Scenario.as_alice).2 ∧
   (on_close Scenario.env1 Scenario.h1 Scenario.as_alice).2 = [Send 2%nat left]).
Proof.
  assert (Hdave : bound Scenario.as_dave = Some ("u-dave", "ROOM2")) by reflexivity.
  assert (Hr2 : rooms Scenario.h1 !! "ROOM2" = Some Scenario.room2) by reflexivity.
  assert (Halice : bound Scenario.as_alice = Some ("u-alice", "ROOM1")) by reflexivity.
  assert (Hr1 : rooms Scenario.h1 !! "ROOM1" = Some Scenario.room1) by reflexivity.
  assert (Hrest : users (removeUser "u-alice" Scenario.room1).1 ≠ [])
    by (vm_compute; intros H; discriminate H).
  split; [by split_and!|]. split.
  - destruct (last_leave_deletes_room_else_user_left Scenario.env1 Scenario.h1
                Scenario.as_dave "u-dave" "ROOM2" Scenario.room2 Hdave Hr2)
      as [Hlast _].
    destruct (Hlast (ex_intro _ _ eq_refl)) as (Hgone & _ & Hreg & Hjoin).
    split_and!; [exact Hgone | exact Hreg |].
    exact (Hjoin Scenario.env1 3%nat (Scenario.join "ROOM2" "Carol") initial_session
             eq_refl eq_refl).
  - destruct (last_leave_deletes_room_else_user_left Scenario.env1 Scenario.h1
                Scenario.as_alice "u-alice" "ROOM1" Scenario.room1 Halice Hr1)
      as [_ Hremain].
    destruct (Hremain Hrest) as (Hroom & Hreg & Hout & Hwho).
    split_and!; [exact Hroom | exact Hreg | exact Hout | | reflexivity].
    apply Hwho.
    exists "u-bob", {| user_id := "u-bob"; user_name := "Bob"; user_isHost := true |},
           2%nat.
    split_and!; [ | simpl; intros H; discriminate H | reflexivity | reflexivity | reflexivity].
    vm_compute. apply list_elem_of_here.
Defined.

(** ** The idle sweep *)

Lemma foldr_cleanup_hit T (l : list (string * Room)) (rs : gmap string Room) code r :
  (code, r) ∈ l → empty_and_old T r = true →
  foldr (cleanup_step T) rs l !! code = None.
Proof.
  induction l as [|[k v] l IH]; intros Hin Hs; [by apply elem_of_nil in Hin|].
  simpl. unfold cleanup_step at 1. simpl.
  apply elem_of_cons in Hin as [Heq | Hin].
  - simplify_eq. rewrite Hs. apply lookup_delete_eq.
  - destruct (empty_and_old T v); [|by apply IH].
    destruct (decide (k = code)) as [->|Hne]; [apply lookup_delete_eq|].
    rewrite lookup_delete_ne by done. by apply IH.
Qed.

Lemma foldr_cleanup_miss T (l : list (string * Room)) (rs : gmap string Room) code :
  (∀ r, (code, r) ∈ l → empty_and_old T r = false) →
  foldr (cleanup_step T) rs l !! code = rs !! code.
Proof.
  induction l as [|[k v] l IH]; intros Hall; [done|].
  simpl. unfold cleanup_step at 1. simpl.
  assert (Htail : ∀ r, (code, r) ∈ l → empty_and_old T r = false)
    by (intros r Hin; apply Hall; by apply elem_of_cons; right).
  destruct (empty_and_old T v) eqn:Hv; [|by apply IH].
  destruct (decide (k = code)) as [->|Hne].
  - rewrite (Hall v) in Hv by apply list_elem_of_here. done.
  - rewrite lookup_delete_ne by done. by apply IH.
Qed.

Lemma empty_and_old_unfold (t : Z) room :
  empty_and_old (t - 60 * 60 * 1000) room =
  bool_decide (users room = []) && bool_decide (createdAt room < t - 3600000).
Proof.
  unfold empty_and_old. f_equal.
  apply bool_decide_ext. by destruct (users room).
Qed.

(** C8: after [cleanupEmptyRooms] a code names a room exactly when it named
    one before that had a user or was created no earlier than one hour
    (3 600 000 ms) before the sweep, and it names that same room, with all
    of its state; a room with no users and an older creation time is gone.
    The connection registry is not touched. *)
Theorem cleanupEmptyRooms_removes_exactly_idle e (h : WebSocketHandler) :
  userConnections (cleanupEmptyRooms e h) = userConnections h ∧
  ∀ code,
    rooms (cleanupEmptyRooms e h) !! code =
    match rooms h !! code with
    | Some room =>
        if bool_decide (users room = []) && bool_decide (createdAt room < now e - 3600000)
        then None else Some room
    | None => None
    end.
Proof.
  split; [done|]. intros code. unfold cleanupEmptyRooms. simpl.
  destruct (rooms h !! code) as [room|] eqn:Hr.
  - rewrite <- empty_and_old_unfold.
    destruct (empty_and_old (now e - 60 * 60 * 1000) room) eqn:Hs.
    + apply (foldr_cleanup_hit _ _ _ _ room); [|done].
      by apply elem_of_map_to_list.
    + rewrite foldr_cleanup_miss; [done|].
      intros r Hin. apply elem_of_map_to_list in Hin. by simplify_eq.
  - rewrite foldr_cleanup_miss; [done|].
    intros r Hin. apply elem_of_map_to_list in Hin. by simplify_eq.
Qed.

(** The sweep on a store holding an abandoned old room next to two live
    ones. *)
Example cleanupEmptyRooms_scenario :
  rooms Scenario.h_stale !! "OLD" = Some Scenario.stale ∧
  rooms (cleanupEmptyRooms Scenario.env_late Scenario.h_stale) !! "OLD" = None ∧
  rooms (cleanupEmptyRooms Scenario.env_late Scenario.h_stale) !! "ROOM1" = Some Scenario.room1 ∧
  rooms (cleanupEmptyRooms Scenario.env_late Scenario.h_stale) !! "ROOM2" = Some Scenario.room2 ∧
  rooms (cleanupEmptyRooms Scenario.env1 Scenario.h_stale) !! "OLD" = Some Scenario.stale.
Proof. vm_compute. by split_and!. Qed.

(** ** Rank order of the snapshot queue

    The queue every snapshot carries holds the songs of the room, most
    voted first. *)

Lemma rank_insert_perm s q : rank_insert s q ≡ₚ s :: q.
Proof.
  induction q as [|t q IH]; simpl; [done|].
  case_bool_decide; [done|]. rewrite IH. apply perm_swap.
Qed.

Lemma getSortedQueue_perm room : getSortedQueue room ≡ₚ queue room.
Proof.
  unfold getSortedQueue. induction (queue room) as [|s q IH]; simpl; [done|].
  by rewrite rank_insert_perm, IH.
Qed.

Lemma rank_insert_sorted s q :
  StronglySorted (λ a b, votes b ≤ votes a)%nat q →
  StronglySorted (λ a b, votes b ≤ votes a)%nat (rank_insert s q).
Proof.
  induction 1 as [|t q Hq IH Ht]; simpl.
  - repeat constructor.
  - case_bool_decide as Hle.
    + constructor; [by constructor|].
      constructor; [done|].
      eapply Forall_impl; [exact Ht|]. simpl. lia.
    + constructor; [done|].
      rewrite rank_insert_perm. constructor; [lia | done].
Qed.

Lemma getSortedQueue_sorted room :
  StronglySorted (λ a b, votes b ≤ votes a)%nat (getSortedQueue room).
Proof.
  unfold getSortedQueue. induction (queue room) as [|s q IH]; simpl.
  - constructor.
  - by apply rank_insert_sorted.
Qed.

(** Snapshots list the same users the room has, in joining order. *)
Lemma toJSON_users room : snap_users (toJSON room) = (users room).*2.
Proof. reflexivity. Qed.

(** * The handler as a whole *)

Import Server.

(** ** What a callback may write, and to whom *)

Lemma broadcastToRoom_delivered e (h : WebSocketHandler) rid message exclude a :
  (∀ t, message ≠ error t) →
  a ∈ broadcastToRoom e h rid message exclude → delivered e h a.
Proof.
  intros Hm. unfold broadcastToRoom.
  destruct (rooms h !! rid) as [room|] eqn:Hr; [|by intros ?%elem_of_nil].
  rewrite list_elem_of_omap. intros [[k u] [_ Hs]]. simpl in Hs.
  case_bool_decide; [|done].
  destruct (userConnections h !! user_id u) as [w|] eqn:Hc; [|done].
  destruct (readyOpen e w) eqn:Ho; [|done].
  simplify_eq. exists w, message. eauto.
Qed.

Lemma handleAddSong_actions e ws m uid rid (h : WebSocketHandler) a :
  a ∈ (try_catch ws (handleAddSong e m uid rid h)).2 →
  (∃ message, a = Send ws message) ∨
  delivered e (try_catch ws (handleAddSong e m uid rid h)).1 a.
Proof.
  unfold handleAddSong.
  destruct (rooms h !! rid) as [room|]; [|by intros ?%elem_of_nil].
  destruct (users_get uid (users room)) as [user|]; [|by intros ?%elem_of_nil].
  destruct (song m) as [input|].
  - simpl. intros Ha. right. revert Ha. by apply broadcastToRoom_delivered.
  - intros ?%list_elem_of_singleton; eauto.
Qed.

Lemma handleVoteSong_actions e ws m uid rid (h : WebSocketHandler) a :
  a ∈ (handleVoteSong e ws m uid rid h).2 →
  (∃ message, a = Send ws message) ∨ delivered e (handleVoteSong e ws m uid rid h).1 a.
Proof.
  unfold handleVoteSong.
  destruct (rooms h !! rid) as [room|]; [|intros ?%list_elem_of_singleton; eauto].
  destruct (voteSong (songId m) uid room) as [room' []]; simpl.
  - intros Ha. right. revert Ha. by apply broadcastToRoom_delivered.
  - intros ?%list_elem_of_singleton; eauto.
Qed.

Lemma handleSkipSong_actions e ws uid rid (h : WebSocketHandler) a :
  a ∈ (handleSkipSong e ws uid rid h).2 →
  (∃ message, a = Send ws message) ∨ delivered e (handleSkipSong e ws uid rid h).1 a.
Proof.
  unfold handleSkipSong.
  destruct (rooms h !! rid) as [room|]; [|intros ?%list_elem_of_singleton; eauto].
  case_bool_decide; [intros ?%list_elem_of_singleton; eauto|].
  destruct (skipCurrentSong room) as [room' [skipped|]]; simpl.
  - intros Ha. right. revert Ha. by apply broadcastToRoom_delivered.
  - by intros ?%elem_of_nil.
Qed.

Lemma handleClearQueue_actions e ws uid rid (h : WebSocketHandler) a :
  a ∈ (handleClearQueue e ws uid rid h).2 →
  (∃ message, a = Send ws message) ∨ delivered e (handleClearQueue e ws uid rid h).1 a.
Proof.
  unfold handleClearQueue.
  destruct (rooms h !! rid) as [room|]; [|intros ?%list_elem_of_singleton; eauto].
  case_bool_decide; [intros ?%list_elem_of_singleton; eauto|].
  simpl. intros Ha. right. revert Ha. by apply broadcastToRoom_delivered.
Qed.

Lemma handleGetRoomState_actions ws rid (h : WebSocketHandler) a :
  a ∈ (handleGetRoomState ws rid h).2 → ∃ message, a = Send ws message.
Proof.
  unfold handleGetRoomState.
  destruct (rooms h !! rid) as [room|]; intros ?%list_elem_of_singleton; eauto.
Qed.

Lemma handleJoinRoom_actions e ws m (h : WebSocketHandler) s a :
  a ∈ (handleJoinRoom e ws m h s).2 →
  (∃ message, a = Send ws message) ∨ delivered e (handleJoinRoom e ws m h s).1.1 a.
Proof.
  unfold handleJoinRoom.
  destruct (rooms h !! roomCode m) as [room|]; [|intros ?%list_elem_of_singleton; eauto].
  simpl. intros [->|Ha]%elem_of_cons; [eauto|].
  right. revert Ha. by apply broadcastToRoom_delivered.
Qed.

Lemma handleUserLeave_actions e uid rid (h : WebSocketHandler) a :
  a ∈ (handleUserLeave e uid rid h).2 → delivered e (handleUserLeave e uid rid h).1 a.
Proof.
  unfold handleUserLeave.
  destruct (rooms h !! rid) as [room|]; [|by intros ?%elem_of_nil].
  destruct (removeUser uid room) as [room' newHost].
  case_bool_decide; [by intros ?%elem_of_nil|].
  simpl. by apply broadcastToRoom_delivered.
Qed.

Lemma guarded_actions (P : WebSocketHandler → Action → Prop) s (h : WebSocketHandler) k a :
  (∀ u r, a ∈ (k u r).2 → P (k u r).1 a) →
  a ∈ (guarded s h k).2 → P (guarded s h k).1.1 a.
Proof.
  intros Hk. unfold guarded. destruct (bound s) as [[u r]|]; [|by intros ?%elem_of_nil].
  specialize (Hk u r). by destruct (k u r).
Qed.

(** Every action of the ['message'] callback is a frame to the calling
    socket or a broadcast frame. *)
Lemma on_message_actions e ws data (h : WebSocketHandler) s a :
  a ∈ (on_message e ws data h s).2 →
  (∃ message, a = Send ws message) ∨ delivered e (on_message e ws data h s).1.1 a.
Proof.
  destruct data as [|m]; [intros ?%list_elem_of_singleton; eauto|].
  unfold on_message.
  repeat case_bool_decide.
  - apply handleJoinRoom_actions.
  - unfold handleCreateRoom. simpl. intros ?%list_elem_of_singleton; eauto.
  - apply (guarded_actions (λ h' a, _ ∨ delivered e h' a)).
    intros u r. apply handleAddSong_actions.
  - apply (guarded_actions (λ h' a, _ ∨ delivered e h' a)).
    intros u r. apply handleVoteSong_actions.
  - apply (guarded_actions (λ h' a, _ ∨ delivered e h' a)).
    intros u r. apply handleSkipSong_actions.
  - apply (guarded_actions (λ h' a, _ ∨ delivered e h' a)).
    intros u r. apply handleClearQueue_actions.
  - apply (guarded_actions (λ h' a, _ ∨ delivered e h' a)).
    intros u r Ha. left. revert Ha. apply handleGetRoomState_actions.
  - intros ?%list_elem_of_singleton; eauto.
  - intros ?%list_elem_of_singleton; eauto.
Qed.

Lemma on_close_actions e (h : WebSocketHandler) s a :
  a ∈ (on_close e h s).2 → delivered e (on_close e h s).1 a.
Proof.
  unfold on_close. destruct (bound s) as [[u r]|]; [|by intros ?%elem_of_nil].
  apply handleUserLeave_actions.
Qed.

(** X1: error frames are unicast.  Whatever the frame, the session and the
    state, an error frame among the actions of the ['message'] callback is
    addressed to the calling socket; the ['close'] callback writes no error
    frame at all. *)
Theorem errors_reach_only_the_caller e ws data (h : WebSocketHandler) s :
  Forall (λ a, ∀ w t, a = Send w (error t) → w = ws) (on_message e ws data h s).2 ∧
  Forall (λ a, ∀ w t, a ≠ Send w (error t)) (on_close e h s).2.
Proof.
  split; apply Forall_forall.
  - intros a Ha w t ->. apply on_message_actions in Ha as [[message Hm] | Hd].
    + by simplify_eq.
    + destruct Hd as (w' & message & Heq & Hne & _). simplify_eq. by destruct (Hne t).
  - intros a Ha w t ->. apply on_close_actions in Ha as (w' & message & Heq & Hne & _).
    simplify_eq. by destruct (Hne t).
Qed.

(** X2: serving a frame or a disconnect never closes a socket: every action
    of the two callbacks is a [send]. *)
Theorem callbacks_never_close_a_socket e ws data (h : WebSocketHandler) s :
  Forall (λ a, ∃ w message, a = Send w message) (on_message e ws data h s).2 ∧
  Forall (λ a, ∃ w message, a = Send w message) (on_close e h s).2.
Proof.
  split; apply Forall_forall.
  - intros a [[message ->] | (w & message & -> & _)]%on_message_actions; eauto.
  - intros a (w & message & -> & _)%on_close_actions; eauto.
Qed.

(** X3: only the calling socket is written to unconditionally.  A frame of
    the ['message'] callback to any other socket, and every frame of the
    ['close'] callback, goes to a socket that is open and that the
    resulting state has registered for some user. *)
Theorem other_sockets_are_written_only_when_open e ws data (h : WebSocketHandler) s :
  Forall (λ a, ∀ w message, a = Send w message → w ≠ ws →
               readyOpen e w = true ∧
               ∃ uid, userConnections (on_message e ws data h s).1.1 !! uid = Some w)
         (on_message e ws data h s).2 ∧
  Forall (λ a, ∀ w message, a = Send w message →
               readyOpen e w = true ∧
               ∃ uid, userConnections (on_close e h s).1 !! uid = Some w)
         (on_close e h s).2.
Proof.
  split; apply Forall_forall.
  - intros a Ha w message -> Hw.
    apply on_message_actions in Ha as [[message' Hm] | Hd]; [by simplify_eq|].
    destruct Hd as (w' & message' & Heq & _ & Ho & Hreg). by simplify_eq.
  - intros a Ha w message ->.
    apply on_close_actions in Ha as (w' & message' & Heq & _ & Ho & Hreg). by simplify_eq.
Qed.

(** ** What a callback leaves alone *)

Lemma bound_roomId s u r : bound s = Some (u, r) → roomId s = Some r ∧ userId s = Some u.
Proof.
  unfold bound. destruct (userId s), (roomId s); try done.
  destruct (_ && _); [|done]. intros. by simplify_eq.
Qed.

Lemma frame_of_refl rid h : frame_of rid h h.
Proof. by split. Qed.

Lemma frame_of_store rid room (h : WebSocketHandler) :
  frame_of rid h {| rooms := <[rid:=room]> (rooms h); userConnections := userConnections h |}.
Proof. split; [|done]. intros c Hc. simpl. by rewrite lookup_insert_ne. Qed.

Lemma handleAddSong_frame e ws m uid rid (h : WebSocketHandler) :
  frame_of rid h (try_catch ws (handleAddSong e m uid rid h)).1.
Proof.
  unfold handleAddSong.
  destruct (rooms h !! rid) as [room|]; [|apply frame_of_refl].
  destruct (users_get uid (users room)); [|apply frame_of_refl].
  destruct (song m); apply frame_of_store.
Qed.

Lemma handleVoteSong_frame e ws m uid rid (h : WebSocketHandler) :
  frame_of rid h (handleVoteSong e ws m uid rid h).1.
Proof.
  unfold handleVoteSong.
  destruct (rooms h !! rid) as [room|]; [|apply frame_of_refl].
  destruct (voteSong (songId m) uid room) as [room' []]; apply frame_of_store.
Qed.

Lemma handleSkipSong_frame e ws uid rid (h : WebSocketHandler) :
  frame_of rid h (handleSkipSong e ws uid rid h).1.
Proof.
  unfold handleSkipSong.
  destruct (rooms h !! rid) as [room|]; [|apply frame_of_refl].
  case_bool_decide; [apply frame_of_refl|].
  destruct (skipCurrentSong room) as [room' [skipped|]]; apply frame_of_store.
Qed.

Lemma handleClearQueue_frame e ws uid rid (h : WebSocketHandler) :
  frame_of rid h (handleClearQueue e ws uid rid h).1.
Proof.
  unfold handleClearQueue.
  destruct (rooms h !! rid) as [room|]; [|apply frame_of_refl].
  case_bool_decide; [apply frame_of_refl|]. apply frame_of_store.
Qed.

Lemma handleGetRoomState_frame ws rid (h : WebSocketHandler) :
  (handleGetRoomState ws rid h).1 = h.
Proof. unfold handleGetRoomState. by destruct (rooms h !! rid). Qed.

Lemma guarded_frame s (h : WebSocketHandler) k :
  (∀ u r, frame_of r h (k u r).1) →
  (guarded s h k).1.2 = s ∧
  userConnections (guarded s h k).1.1 = userConnections h ∧
  ∀ c, roomId s ≠ Some c → rooms (guarded s h k).1.1 !! c = rooms h !! c.
Proof.
  intros Hk. unfold guarded. destruct (bound s) as [[u r]|] eqn:Hb; [|done].
  destruct (Hk u r) as [Hrooms Hconns]. apply bound_roomId in Hb as [Hr _].
  destruct (k u r) as [h' out]; simpl in *. split_and!; [done..|].
  intros c Hc. apply Hrooms. congruence.
Qed.

(** What every session-scoped case of the switch, ping, and the two error
    replies have in common. *)
Lemma on_message_other_types e ws data (h : WebSocketHandler) s :
  (∀ m, data = Parsed m → type m ≠ "join_room" ∧ type m ≠ "create_room") →
  (on_message e ws data h s).1.2 = s ∧
  userConnections (on_message e ws data h s).1.1 = userConnections h ∧
  ∀ c, roomId s ≠ Some c → rooms (on_message e ws data h s).1.1 !! c = rooms h !! c.
Proof.
  intros Ht. destruct data as [|m]; [done|].
  destruct (Ht m eq_refl) as [Hj Hc]. unfold on_message.
  rewrite (bool_decide_eq_false_2 _ Hj), (bool_decide_eq_false_2 _ Hc).
  repeat case_bool_decide; try done.
  - apply guarded_frame. intros. apply handleAddSong_frame.
  - apply guarded_frame. intros. apply handleVoteSong_frame.
  - apply guarded_frame. intros. apply handleSkipSong_frame.
  - apply guarded_frame. intros. apply handleClearQueue_frame.
  - apply guarded_frame. intros. rewrite handleGetRoomState_frame. apply frame_of_refl.
Qed.

Lemma addressed_join_create m s :
  type m = "join_room" ∨ type m = "create_room" → addressed (Parsed m) s = Some (roomCode m).
Proof.
  intros Ht. unfold addressed.
  destruct Ht as [-> | ->]; reflexivity.
Qed.

Lemma addressed_other data s :
  (∀ m, data = Parsed m → type m ≠ "join_room" ∧ type m ≠ "create_room") →
  addressed data s = roomId s.
Proof.
  intros Ht. destruct data as [|m]; [done|]. destruct (Ht m eq_refl) as [Hj Hc].
  unfold addressed.
  by rewrite (bool_decide_eq_false_2 _ Hj), (bool_decide_eq_false_2 _ Hc).
Qed.

Lemma join_create_or_other data :
  (∃ m, data = Parsed m ∧ (type m = "join_room" ∨ type m = "create_room")) ∨
  (∀ m, data = Parsed m → type m ≠ "join_room" ∧ type m ≠ "create_room").
Proof.
  destruct data as [|m]; [by right|].
  destruct (decide (type m = "join_room")); [left; eauto|].
  destruct (decide (type m = "create_room")); [left; eauto|].
  right. intros m' ?. by simplify_eq.
Qed.

(** X4: rooms are independent.  A frame changes no room other than the one
    it is about (the message's [roomCode] for create_room and join_room,
    the connection's [roomId] otherwise), and a disconnect changes no room
    other than the connection's. *)
Theorem other_rooms_are_untouched e ws data (h : WebSocketHandler) s c :
  (addressed data s ≠ Some c →
   rooms (on_message e ws data h s).1.1 !! c = rooms h !! c) ∧
  (roomId s ≠ Some c →
   rooms (on_close e h s).1 !! c = rooms h !! c).
Proof.
  split.
  - intros Hc. destruct (join_create_or_other data) as [(m & -> & Ht) | Ht].
    + rewrite addressed_join_create in Hc by done.
      assert (roomCode m ≠ c) as Hne by congruence.
      destruct Ht as [Ht | Ht].
      * rewrite on_message_join_room by done. unfold handleJoinRoom.
        destruct (rooms h !! roomCode m); [|done]. simpl. by rewrite lookup_insert_ne.
      * rewrite on_message_create_room by done. simpl. by rewrite lookup_insert_ne.
    + rewrite addressed_other in Hc by done.
      by apply on_message_other_types.
  - intros Hc. unfold on_close. destruct (bound s) as [[u r]|] eqn:Hb; [|done].
    apply bound_roomId in Hb as [Hr _].
    assert (r ≠ c) as Hne by congruence.
    unfold handleUserLeave. destruct (rooms h !! r) as [room|]; [|done].
    destruct (removeUser u room) as [room' newHost].
    case_bool_decide; simpl.
    + by rewrite lookup_delete_ne, lookup_insert_ne.
    + by rewrite lookup_insert_ne.
Qed.

Lemma other_rooms_are_untouched_witness :
  (addressed (Parsed (Cases.create "ROOM1" "Carol")) Scenario.as_dave ≠ Some "ROOM2" ∧
   roomId Scenario.as_alice ≠ Some "ROOM2") ∧
  rooms (on_message Scenario.env1 3%nat (Parsed (Cases.create "ROOM1" "Carol"))
           Scenario.h1 Scenario.as_dave).1.1 !! "ROOM2" = rooms Scenario.h1 !! "ROOM2" ∧
  rooms (on_close Scenario.env1 Scenario.h1 Scenario.as_alice).1 !! "ROOM2"
    = rooms Scenario.h1 !! "ROOM2".
Proof.
  assert (H1 : addressed (Parsed (Cases.create "ROOM1" "Carol")) Scenario.as_dave
               ≠ Some "ROOM2") by (vm_compute; intros H; discriminate H).
  assert (H2 : roomId Scenario.as_alice ≠ Some "ROOM2")
    by (vm_compute; intros H; discriminate H).
  split; [by split|]. split.
  - exact (proj1 (other_rooms_are_untouched Scenario.env1 3%nat
                    (Parsed (Cases.create "ROOM1" "Carol")) Scenario.h1 Scenario.as_dave
                    "ROOM2") H1).
  - exact (proj2 (other_rooms_are_untouched Scenario.env1 3%nat SyntaxError
                    Scenario.h1 Scenario.as_alice "ROOM2") H2).
Defined.

(** X5: the connection registry changes only through create_room and
    join_room.  Whatever the frame, no entry other than the one for the id
    drawn in this call is touched; a frame that is neither a create_room nor
    a join_room leaves the whole registry as it was. *)
Theorem registry_changes_only_on_create_and_join e ws data (h : WebSocketHandler) s :
  (∀ u, u ≠ uuidv4 e →
        userConnections (on_message e ws data h s).1.1 !! u = userConnections h !! u) ∧
  ((∀ m, data = Parsed m → type m ≠ "join_room" ∧ type m ≠ "create_room") →
   userConnections (on_message e ws data h s).1.1 = userConnections h).
Proof.
  split.
  - intros u Hu. destruct (join_create_or_other data) as [(m & -> & [Ht | Ht]) | Ht].
    + rewrite on_message_join_room by done. unfold handleJoinRoom.
      destruct (rooms h !! roomCode m); [|done]. simpl. by rewrite lookup_insert_ne.
    + rewrite on_message_create_room by done. simpl. by rewrite lookup_insert_ne.
    + by destruct (on_message_other_types e ws data h s Ht) as (_ & -> & _).
  - intros Ht. by destruct (on_message_other_types e ws data h s Ht) as (_ & -> & _).
Qed.

(** X6: the connection's [userId] and [roomId] are set by a create_room and
    by a join_room that finds its room, to the fresh id and the message's
    room code; every other frame, and a join_room for an unknown code,
    leaves them as they were. *)
Theorem session_is_set_only_by_create_and_join e ws data (h : WebSocketHandler) s :
  (∀ m, data = Parsed m →
        type m = "create_room" ∨
        type m = "join_room" ∧ is_Some (rooms h !! roomCode m) →
        (on_message e ws data h s).1.2
          = {| userId := Some (uuidv4 e); roomId := Some (roomCode m) |}) ∧
  ((∀ m, data = Parsed m →
         type m ≠ "create_room" ∧
         (type m = "join_room" → rooms h !! roomCode m = None)) →
   (on_message e ws data h s).1.2 = s).
Proof.
  split.
  - intros m -> [Ht | [Ht [room Hr]]].
    + by rewrite on_message_create_room.
    + rewrite on_message_join_room by done. unfold handleJoinRoom. by rewrite Hr.
  - intros Hother. destruct (join_create_or_other data) as [(m & -> & [Ht | Ht]) | Ht].
    + destruct (Hother m eq_refl) as [_ Hr].
      rewrite on_message_join_room by done. unfold handleJoinRoom. by rewrite (Hr Ht).
    + by destruct (Hother m eq_refl) as [Hc _].
    + by destruct (on_message_other_types e ws data h s Ht) as (-> & _).
Qed.

(** ** add_song *)

(** X7: an add_song on a bound session whose room is no longer registered,
    or whose user is not among the room's users, is dropped without a
    word: no reply, no broadcast, no change. *)
Theorem add_song_on_stale_session_is_silent e ws m (h : WebSocketHandler) s uid rid :
  bound s = Some (uid, rid) →
  type m = "add_song" →
  (rooms h !! rid = None ∨
   ∃ room, rooms h !! rid = Some room ∧ users_get uid (users room) = None) →
  on_message e ws (Parsed m) h s = (h, s, []).
Proof.
  intros Hb Ht Hstale. rewrite on_message_add_song by done.
  rewrite (guarded_bound _ _ _ uid rid) by done. unfold handleAddSong.
  destruct Hstale as [Hr | (room & Hr & Hu)]; rewrite Hr; [done|]. by rewrite Hu.
Qed.

Lemma add_song_on_stale_session_is_silent_witness :
  (bound Cases.as_ghost = Some ("u-bob", "GONE") ∧
   rooms Scenario.h1 !! "GONE" = None ∧
   bound Cases.as_stranger = Some ("u-zed", "ROOM1") ∧
   rooms Scenario.h1 !! "ROOM1" = Some Scenario.room1 ∧
   users_get "u-zed" (users Scenario.room1) = None) ∧
  on_message Scenario.env1 2%nat (Parsed (Scenario.msg "add_song")) Scenario.h1 Cases.as_ghost
    = (Scenario.h1, Cases.as_ghost, []) ∧
  on_message Scenario.env1 5%nat (Parsed (Scenario.msg "add_song")) Scenario.h1 Cases.as_stranger
    = (Scenario.h1, Cases.as_stranger, []).
Proof.
  assert (Hg : bound Cases.as_ghost = Some ("u-bob", "GONE")) by reflexivity.
  assert (Hgone : rooms Scenario.h1 !! "GONE" = None) by reflexivity.
  assert (Hs : bound Cases.as_stranger = Some ("u-zed", "ROOM1")) by reflexivity.
  assert (Hr : rooms Scenario.h1 !! "ROOM1" = Some Scenario.room1) by reflexivity.
  assert (Hu : users_get "u-zed" (users Scenario.room1) = None) by reflexivity.
  split; [by split_and!|]. split.
  - exact (add_song_on_stale_session_is_silent Scenario.env1 2%nat (Scenario.msg "add_song")
             Scenario.h1 Cases.as_ghost "u-bob" "GONE" Hg eq_refl (or_introl Hgone)).
  - exact (add_song_on_stale_session_is_silent Scenario.env1 5%nat (Scenario.msg "add_song")
             Scenario.h1 Cases.as_stranger "u-zed" "ROOM1" Hs eq_refl
             (or_intror (ex_intro _ Scenario.room1 (conj Hr Hu)))).
Defined.

(** X8: an add_song on a bound session from a member of a registered
    room.  When the message carries a song object, the room [addSong]
    returns is stored and song_added, carrying the song [addSong] returned
    (added under the member's name, with the id drawn in this call) and the
    new snapshot, goes to the open registered connection of every user of
    the room, the sender's like any other; the caller gets no separate
    reply.  When it carries none, the call throws after [addSong] has run:
    the only action is the reply "Invalid message format" on the calling
    socket, nothing is broadcast, and session, registry, and the room's
    users and host are as before. *)
Theorem add_song_reaches_every_member e ws m (h : WebSocketHandler) s uid rid room user :
  bound s = Some (uid, rid) →
  type m = "add_song" →
  rooms h !! rid = Some room →
  users_get uid (users room) = Some user →
  let res := on_message e ws (Parsed m) h s in
  match song m with
  | Some input =>
      let added := addSong (uuidv4 e) input (user_name user) room in
      let frame := song_added added.2 (toJSON added.1) in
      res.1.2 = s ∧
      rooms res.1.1 !! rid = Some added.1 ∧
      res.2 = broadcastToRoom e res.1.1 rid frame None ∧
      ∀ a, a ∈ res.2 ↔
           ∃ k u w, (k, u) ∈ users room ∧ userConnections h !! user_id u = Some w ∧
                    readyOpen e w = true ∧ a = Send w frame
  | None =>
      res.1.2 = s ∧
      res.2 = [Send ws (error "Invalid message format")] ∧
      userConnections res.1.1 = userConnections h ∧
      ∃ room', rooms res.1.1 !! rid = Some room' ∧
               users room' = users room ∧ hostId room' = hostId room
  end.
Proof.
  intros Hb Ht Hr Hu res. subst res.
  rewrite on_message_add_song by done.
  rewrite (guarded_bound _ _ _ uid rid) by done.
  unfold handleAddSong. rewrite Hr, Hu.
  destruct (song m) as [input|]; simpl.
  - split_and!; [done | apply lookup_insert_eq | done |].
    intros a. rewrite elem_of_broadcastToRoom by (simpl; apply lookup_insert_eq).
    simpl. split.
    + intros (k & u & w & Hin & _ & Hc & Ho & ->).
      exists k, u, w. split_and!; try done.
    + intros (k & u & w & Hin & Hc & Ho & ->). exists k, u, w. split_and!; try done.
  - split_and!; [done..|]. eexists. split; [apply lookup_insert_eq | done].
Qed.

Lemma add_song_reaches_every_member_witness :
  (bound Scenario.as_bob = Some ("u-bob", "ROOM1") ∧
   rooms Scenario.h1 !! "ROOM1" = Some Scenario.room1 ∧
   users_get "u-bob" (users Scenario.room1) = Some Scenario.bob) ∧
  (let input := {| in_title := "So What"; in_artist := "Miles Davis";
                   in_uri := "spotify:track:2" |} in
   let added := addSong "u-carol" input "Bob" Scenario.room1 in
   let res := on_message Cases.env_bob_closed 2%nat (Parsed (Scenario.msg "add_song"))
                Scenario.h1 Scenario.as_bob in
   rooms res.1.1 !! "ROOM1" = Some added.1 ∧
   res.2 = broadcastToRoom Cases.env_bob_closed res.1.1 "ROOM1"
             (song_added added.2 (toJSON added.1)) None ∧
   res.2 = [Send 1%nat (song_added added.2 (toJSON added.1))]) ∧
  (on_message Scenario.env1 2%nat (Parsed (Cases.add_song_without_song))
     Scenario.h1 Scenario.as_bob).2
  = [Send 2%nat (error "Invalid message format")].
Proof.
  assert (Hb : bound Scenario.as_bob = Some ("u-bob", "ROOM1")) by reflexivity.
  assert (Hr : rooms Scenario.h1 !! "ROOM1" = Some Scenario.room1) by reflexivity.
  assert (Hu : users_get "u-bob" (users Scenario.room1) = Some Scenario.bob) by reflexivity.
  split; [by split_and!|]. split.
  - destruct (add_song_reaches_every_member Cases.env_bob_closed 2%nat
                (Scenario.msg "add_song") Scenario.h1 Scenario.as_bob "u-bob" "ROOM1"
                Scenario.room1 Scenario.bob Hb eq_refl Hr Hu) as (_ & Hroom & Hout & _).
    split_and!; [exact Hroom | exact Hout | reflexivity].
  - destruct (add_song_reaches_every_member Scenario.env1 2%nat
                Cases.add_song_without_song Scenario.h1 Scenario.as_bob "u-bob" "ROOM1"
                Scenario.room1 Scenario.bob Hb eq_refl Hr Hu) as (_ & Hout & _).
    exact Hout.
Defined.

(** ** get_room_state and vote_song on a missing room *)

(** X9: get_room_state only reads.  Whatever the session and the state, the
    state and the session come back unchanged; an unbound session gets
    nothing, a bound one gets exactly one frame on the calling socket: the
    snapshot of its room, or "Room not found" when the room is not
    registered. *)
Theorem get_room_state_only_reads e ws m (h : WebSocketHandler) s :
  type m = "get_room_state" →
  on_message e ws (Parsed m) h s =
    (h, s,
     match bound s with
     | None => []
     | Some (_, rid) =>
         [Send ws match rooms h !! rid with
                  | Some room => room_state (toJSON room)
                  | None => error "Room not found"
                  end]
     end).
Proof.
  intros Ht. rewrite on_message_get_room_state by done. unfold guarded.
  destruct (bound s) as [[u r]|]; [|done].
  unfold handleGetRoomState. by destruct (rooms h !! r).
Qed.

Lemma get_room_state_only_reads_witness :
  type (Scenario.msg "get_room_state") = "get_room_state" ∧
  on_message Scenario.env1 2%nat (Parsed (Scenario.msg "get_room_state"))
    Scenario.h1 Scenario.as_bob
  = (Scenario.h1, Scenario.as_bob, [Send 2%nat (room_state (toJSON Scenario.room1))]) ∧
  on_message Scenario.env1 2%nat (Parsed (Scenario.msg "get_room_state"))
    Scenario.h1 Cases.as_ghost
  = (Scenario.h1, Cases.as_ghost, [Send 2%nat (error "Room not found")]).
Proof.
  split; [reflexivity|]. split.
  - exact (get_room_state_only_reads Scenario.env1 2%nat (Scenario.msg "get_room_state")
             Scenario.h1 Scenario.as_bob eq_refl).
  - exact (get_room_state_only_reads Scenario.env1 2%nat (Scenario.msg "get_room_state")
             Scenario.h1 Cases.as_ghost eq_refl).
Defined.

(** X10: a vote_song on a bound session whose room is not registered is
    answered "Room not found" on the calling socket, and nothing changes;
    unlike add_song, which stays silent there. *)
Theorem vote_song_without_room e ws m (h : WebSocketHandler) s uid rid :
  bound s = Some (uid, rid) →
  type m = "vote_song" →
  rooms h !! rid = None →
  on_message e ws (Parsed m) h s = (h, s, [Send ws (error "Room not found")]).
Proof.
  intros Hb Ht Hr. rewrite on_message_vote_song by done.
  rewrite (guarded_bound _ _ _ uid rid) by done.
  unfold handleVoteSong. by rewrite Hr.
Qed.

Lemma vote_song_without_room_witness :
  (bound Cases.as_ghost = Some ("u-bob", "GONE") ∧ rooms Scenario.h1 !! "GONE" = None) ∧
  on_message Scenario.env1 2%nat (Parsed (Scenario.vote_for "s-1")) Scenario.h1 Cases.as_ghost
    = (Scenario.h1, Cases.as_ghost, [Send 2%nat (error "Room not found")]).
Proof.
  assert (Hg : bound Cases.as_ghost = Some ("u-bob", "GONE")) by reflexivity.
  assert (Hgone : rooms Scenario.h1 !! "GONE" = None) by reflexivity.
  split; [by split|].
  exact (vote_song_without_room Scenario.env1 2%nat (Scenario.vote_for "s-1")
           Scenario.h1 Cases.as_ghost "u-bob" "GONE" Hg eq_refl Hgone).
Defined.

(** ** skip_song and clear_queue by the host *)

Lemma broadcast_after_store e (h : WebSocketHandler) rid room frame a :
  a ∈ broadcastToRoom e
        {| rooms := <[rid:=room]> (rooms h); userConnections := userConnections h |}
        rid frame None ↔
  ∃ k u w, (k, u) ∈ users room ∧ userConnections h !! user_id u = Some w ∧
           readyOpen e w = true ∧ a = Send w frame.
Proof.
  rewrite elem_of_broadcastToRoom by (simpl; apply lookup_insert_eq). simpl. split.
  - intros (k & u & w & Hin & _ & Hc & Ho & ->). exists k, u, w. split_and!; done.
  - intros (k & u & w & Hin & Hc & Ho & ->). exists k, u, w. split_and!; done.
Qed.

(** X11: a clear_queue from the host of a registered room stores the room
    [clearQueue] returns and sends queue_cleared with its snapshot to the
    open registered connection of every user of the room; this happens
    whether or not anything was queued. *)
Theorem host_clear_queue_always_broadcasts e ws m (h : WebSocketHandler) s uid rid room :
  bound s = Some (uid, rid) →
  type m = "clear_queue" →
  rooms h !! rid = Some room →
  hostId room = uid →
  let res := on_message e ws (Parsed m) h s in
  let frame := queue_cleared (toJSON (clearQueue room)) in
  res.1.2 = s ∧
  rooms res.1.1 !! rid = Some (clearQueue room) ∧
  ∀ a, a ∈ res.2 ↔
       ∃ k u w, (k, u) ∈ users room ∧ userConnections h !! user_id u = Some w ∧
                readyOpen e w = true ∧ a = Send w frame.
Proof.
  intros Hb Ht Hr Hh res frame. subst res frame.
  rewrite on_message_clear_queue by done.
  rewrite (guarded_bound _ _ _ uid rid) by done.
  unfold handleClearQueue. rewrite Hr.
  rewrite bool_decide_eq_false_2 by (intros Hne; apply Hne; exact Hh).
  simpl. split_and!; [done | apply lookup_insert_eq |].
  intros a. exact (broadcast_after_store e h rid (clearQueue room) _ a).
Qed.

Lemma host_clear_queue_always_broadcasts_witness :
  (bound Scenario.as_dave = Some ("u-dave", "ROOM2") ∧
   rooms Scenario.h1 !! "ROOM2" = Some Scenario.room2 ∧
   hostId Scenario.room2 = "u-dave" ∧ queue Scenario.room2 = []) ∧
  let res := on_message Scenario.env1 4%nat (Parsed (Scenario.msg "clear_queue"))
               Scenario.h1 Scenario.as_dave in
  rooms res.1.1 !! "ROOM2" = Some (clearQueue Scenario.room2) ∧
  res.2 = [Send 4%nat (queue_cleared (toJSON (clearQueue Scenario.room2)))].
Proof.
  assert (Hb : bound Scenario.as_dave = Some ("u-dave", "ROOM2")) by reflexivity.
  assert (Hr : rooms Scenario.h1 !! "ROOM2" = Some Scenario.room2) by reflexivity.
  assert (Hh : hostId Scenario.room2 = "u-dave") by reflexivity.
  split; [by split_and!|].
  destruct (host_clear_queue_always_broadcasts Scenario.env1 4%nat
              (Scenario.msg "clear_queue") Scenario.h1 Scenario.as_dave "u-dave" "ROOM2"
              Scenario.room2 Hb eq_refl Hr Hh) as (_ & Hroom & _).
  split; [exact Hroom | reflexivity].
Defined.

(** X12: a skip_song from the host of a registered room, when
    [skipCurrentSong] returns a song, stores the room it leaves and sends
    song_skipped with that song and the new snapshot to the open registered
    connection of every user of the room. *)
Theorem host_skip_song_broadcasts e ws m (h : WebSocketHandler) s uid rid room skipped :
  bound s = Some (uid, rid) →
  type m = "skip_song" →
  rooms h !! rid = Some room →
  hostId room = uid →
  (skipCurrentSong room).2 = Some skipped →
  let room' := (skipCurrentSong room).1 in
  let res := on_message e ws (Parsed m) h s in
  let frame := song_skipped skipped (toJSON room') in
  res.1.2 = s ∧
  rooms res.1.1 !! rid = Some room' ∧
  ∀ a, a ∈ res.2 ↔
       ∃ k u w, (k, u) ∈ users room' ∧ userConnections h !! user_id u = Some w ∧
                readyOpen e w = true ∧ a = Send w frame.
Proof.
  intros Hb Ht Hr Hh Hsk room' res frame. subst room' res frame.
  rewrite on_message_skip_song by done.
  rewrite (guarded_bound _ _ _ uid rid) by done.
  unfold handleSkipSong. rewrite Hr.
  rewrite bool_decide_eq_false_2 by (intros Hne; apply Hne; exact Hh).
  destruct (skipCurrentSong room) as [room' sk]; simpl in *. subst sk. simpl.
  split_and!; [done | apply lookup_insert_eq |].
  intros a. apply broadcast_after_store.
Qed.

Lemma host_skip_song_broadcasts_witness :
  (bound Scenario.as_alice = Some ("u-alice", "ROOM1") ∧
   rooms Scenario.h1 !! "ROOM1" = Some Scenario.room1 ∧
   hostId Scenario.room1 = "u-alice" ∧
   (skipCurrentSong Scenario.room1).2 = Some Scenario.song1) ∧
  let res := on_message Scenario.env1 1%nat (Parsed (Scenario.msg "skip_song"))
               Scenario.h1 Scenario.as_alice in
  let room' := (skipCurrentSong Scenario.room1).1 in
  rooms res.1.1 !! "ROOM1" = Some room' ∧
  res.2 = [Send 1%nat (song_skipped Scenario.song1 (toJSON room'));
           Send 2%nat (song_skipped Scenario.song1 (toJSON room'))].
Proof.
  assert (Hb : bound Scenario.as_alice = Some ("u-alice", "ROOM1")) by reflexivity.
  assert (Hr : rooms Scenario.h1 !! "ROOM1" = Some Scenario.room1) by reflexivity.
  assert (Hh : hostId Scenario.room1 = "u-alice") by reflexivity.
  assert (Hsk : (skipCurrentSong Scenario.room1).2 = Some Scenario.song1) by reflexivity.
  split; [by split_and!|].
  destruct (host_skip_song_broadcasts Scenario.env1 1%nat (Scenario.msg "skip_song")
              Scenario.h1 Scenario.as_alice "u-alice" "ROOM1" Scenario.room1
              Scenario.song1 Hb eq_refl Hr Hh Hsk) as (_ & Hroom & _).
  split; [exact Hroom | reflexivity].
Defined.

(** ** shutdown *)

Lemma shutdown_loop_spec e closed cs :
  ∃ sockets,
    shutdown_loop e closed cs = flat_map notice sockets ∧
    NoDup sockets ∧
    ∀ w, w ∈ sockets ↔
         readyOpen e w = true ∧ (w ∉ closed) ∧ ∃ uid : string, (uid, w) ∈ cs.
Proof.
  revert closed. induction cs as [|[uid0 w0] cs IH]; intros closed.
  - exists []. split_and!; [done | constructor |].
    intros w. split; [by intros ?%elem_of_nil|].
    intros (_ & _ & uid & ?%elem_of_nil). done.
  - simpl. destruct (readyOpen e w0 && bool_decide (w0 ∉ closed)) eqn:Hc.
    + apply andb_true_iff in Hc as [Ho Hn]. apply bool_decide_eq_true in Hn.
      destruct (IH (w0 :: closed)) as (sockets & Heq & Hnd & Hin).
      exists (w0 :: sockets). split_and!.
      * simpl. by rewrite Heq.
      * constructor; [|done]. intros (_ & Hw & _)%Hin. apply Hw. by left.
      * intros w. rewrite elem_of_cons, Hin. split.
        -- intros [-> | (Hw & Hnc & uid & Hcs)].
           ++ split_and!; [done..|]. exists uid0. by left.
           ++ split_and!; [done | |].
              ** intros ?. apply Hnc. by right.
              ** exists uid. by right.
        -- intros (Hw & Hnc & uid & Hcs).
           destruct (decide (w = w0)) as [->|Hne]; [by left|]. right.
           split_and!; [done | |].
           ++ intros [?|?]%elem_of_cons; done.
           ++ exists uid. apply elem_of_cons in Hcs as [?|?]; [by simplify_eq|done].
    + destruct (IH closed) as (sockets & Heq & Hnd & Hin).
      exists sockets. split_and!; [done..|].
      intros w. rewrite Hin. split.
      * intros (Hw & Hnc & uid & Hcs). split_and!; [done..|]. exists uid. by right.
      * intros (Hw & Hnc & uid & Hcs). split_and!; [done..|].
        apply elem_of_cons in Hcs as [?|?]; [|by eauto]. simplify_eq.
        rewrite Hw in Hc. simpl in Hc. by apply bool_decide_eq_false in Hc.
Qed.

(** X13: [shutdown] writes, for each distinct socket that is registered for
    some user and open, the server_shutdown notice immediately followed by
    the close of that socket, once; sockets that are not open, and sockets
    nobody is registered on, get nothing. *)
Theorem shutdown_notifies_each_open_socket_once e (h : WebSocketHandler) :
  ∃ sockets,
    shutdown e h = flat_map notice sockets ∧
    NoDup sockets ∧
    ∀ w, w ∈ sockets ↔
         readyOpen e w = true ∧ ∃ uid, userConnections h !! uid = Some w.
Proof.
  destruct (shutdown_loop_spec e [] (map_to_list (userConnections h)))
    as (sockets & Heq & Hnd & Hin).
  exists sockets. split_and!; [done..|].
  intros w. rewrite Hin. split.
  - intros (Hw & _ & uid & Hc%elem_of_map_to_list). eauto.
  - intros (Hw & uid & Hc). split_and!; [done | by intros ?%elem_of_nil |].
    exists uid. by apply elem_of_map_to_list.
Qed.

(** ** The sweep, again *)

Lemma cleanup_rooms_lookup e (h : WebSocketHandler) code :
  rooms (cleanupEmptyRooms e h) !! code =
  rooms h !! code ≫=
    (λ room, if empty_and_old (now e - 60 * 60 * 1000) room then None else Some room).
Proof.
  unfold cleanupEmptyRooms. simpl.
  destruct (rooms h !! code) as [room|] eqn:Hr; simpl.
  - destruct (empty_and_old (now e - 60 * 60 * 1000) room) eqn:Hs.
    + apply (foldr_cleanup_hit _ _ _ _ room); [|done]. by apply elem_of_map_to_list.
    + rewrite foldr_cleanup_miss; [done|].
      intros r Hin. apply elem_of_map_to_list in Hin. by simplify_eq.
  - rewrite foldr_cleanup_miss; [done|].
    intros r Hin. apply elem_of_map_to_list in Hin. by simplify_eq.
Qed.

Lemma handler_eq (h h' : WebSocketHandler) :
  rooms h = rooms h' → userConnections h = userConnections h' → h = h'.
Proof. destruct h, h'; simpl. by intros -> ->. Qed.

(** X14: two sweeps in a row remove what one sweep at the later of the two
    times removes. *)
Theorem sweeps_compose e1 e2 e (h : WebSocketHandler) :
  now e = Z.max (now e1) (now e2) →
  cleanupEmptyRooms e2 (cleanupEmptyRooms e1 h) = cleanupEmptyRooms e h.
Proof.
  intros Hmax. apply handler_eq; [|done].
  apply map_eq. intros code. rewrite !cleanup_rooms_lookup.
  destruct (rooms h !! code) as [room|]; simpl; [|done].
  unfold empty_and_old. rewrite Hmax.
  destruct (bool_decide (length (users room) = 0%nat)) eqn:Hlen; simpl.
  - repeat case_bool_decide; simpl; try done; try lia.
    all: rewrite ?Hlen; simpl; repeat case_bool_decide; try done; lia.
  - by rewrite Hlen.
Qed.

Lemma sweeps_compose_witness :
  now Scenario.env_late = Z.max (now Scenario.env1) (now Scenario.env_late) ∧
  cleanupEmptyRooms Scenario.env_late (cleanupEmptyRooms Scenario.env1 Scenario.h_stale)
    = cleanupEmptyRooms Scenario.env_late Scenario.h_stale.
Proof.
  split; [reflexivity|].
  exact (sweeps_compose Scenario.env1 Scenario.env_late Scenario.env_late
           Scenario.h_stale eq_refl).
Defined.

(** X15: the sweep only removes and settles at once: the rooms after it are
    among those before it, so the room counter cannot grow, and a second
    sweep at the same time changes nothing more. *)
Theorem sweep_only_removes_and_is_idempotent e (h : WebSocketHandler) :
  rooms (cleanupEmptyRooms e h) ⊆ rooms h ∧
  (getRoomsCount (cleanupEmptyRooms e h) ≤ getRoomsCount h)%nat ∧
  cleanupEmptyRooms e (cleanupEmptyRooms e h) = cleanupEmptyRooms e h.
Proof.
  assert (Hsub : rooms (cleanupEmptyRooms e h) ⊆ rooms h).
  { apply map_subseteq_spec. intros code room. rewrite cleanup_rooms_lookup.
    destruct (rooms h !! code) as [room0|]; simpl; [|done].
    by destruct (empty_and_old _ room0). }
  split_and!; [done | by apply map_subseteq_size |].
  apply handler_eq; [|done].
  apply map_eq. intros code. rewrite !cleanup_rooms_lookup.
  destruct (rooms h !! code) as [room|]; simpl; [|done].
  destruct (empty_and_old _ room) eqn:Hs; simpl; [done|]. by rewrite Hs.
Qed.

(** ** The counters *)

(** X16: after a create_room the room counter is one higher if the code was
    free and unchanged if it was registered (the room is replaced, not
    added); the connection counter is one higher unless the drawn id was
    already registered. *)
Theorem counters_after_create_room e ws m (h : WebSocketHandler) s :
  type m = "create_room" →
  let h' := (on_message e ws (Parsed m) h s).1.1 in
  getRoomsCount h' =
    match rooms h !! roomCode m with
    | Some _ => getRoomsCount h
    | None => S (getRoomsCount h)
    end ∧
  getUsersCount h' =
    match userConnections h !! uuidv4 e with
    | Some _ => getUsersCount h
    | None => S (getUsersCount h)
    end.
Proof.
  intros Ht. simpl. rewrite on_message_create_room by done.
  unfold getRoomsCount, getUsersCount, handleCreateRoom. simpl.
  rewrite !map_size_insert.
  by destruct (rooms h !! roomCode m), (userConnections h !! uuidv4 e).
Qed.

Lemma counters_after_create_room_witness :
  type (Cases.create "ROOM1" "Carol") = "create_room" ∧
  (let h' := (on_message Scenario.env1 3%nat (Parsed (Cases.create "ROOM1" "Carol"))
                Scenario.h1 initial_session).1.1 in
   getRoomsCount h' = getRoomsCount Scenario.h1 ∧
   getUsersCount h' = S (getUsersCount Scenario.h1)) ∧
  (let h' := (on_message Scenario.env1 3%nat (Parsed (Cases.create "ROOM3" "Carol"))
                Scenario.h1 initial_session).1.1 in
   getRoomsCount h' = S (getRoomsCount Scenario.h1) ∧
   getUsersCount h' = S (getUsersCount Scenario.h1)).
Proof.
  split; [reflexivity|]. split.
  - exact (counters_after_create_room Scenario.env1 3%nat (Cases.create "ROOM1" "Carol")
             Scenario.h1 initial_session eq_refl).
  - exact (counters_after_create_room Scenario.env1 3%nat (Cases.create "ROOM3" "Carol")
             Scenario.h1 initial_session eq_refl).
Defined.

(** ** Disconnect, again *)

(** X17: what a disconnect does to the registry.  On an unbound session, or
    on a bound one whose room is not registered, nothing at all happens:
    the state comes back as it was, the user's connection entry (if any)
    included.  When the room is registered, exactly the entry of the
    session's user is removed. *)
Theorem close_unregisters_only_with_a_room e (h : WebSocketHandler) s :
  match bound s with
  | None => on_close e h s = (h, [])
  | Some (uid, rid) =>
      match rooms h !! rid with
      | None => on_close e h s = (h, [])
      | Some _ => userConnections (on_close e h s).1 = delete uid (userConnections h)
      end
  end.
Proof.
  unfold on_close. destruct (bound s) as [[uid rid]|]; [|done].
  unfold handleUserLeave. destruct (rooms h !! rid) as [room|]; [|done].
  destruct (removeUser uid room) as [room' newHost]. by case_bool_decide.
Qed.

(** ** An invariant of the room store *)

Lemma store_ok_update (h : WebSocketHandler) rid room0 room cs :
  store_ok h → rooms h !! rid = Some room0 →
  users room ≠ [] → room_id room = room_id room0 →
  store_ok {| rooms := <[rid:=room]> (rooms h); userConnections := cs |}.
Proof.
  intros Hok Hr Hu Hid. apply map_Forall_insert_2; [|done].
  destruct (Hok rid room0 Hr) as [_ Hid0]. split; [done | congruence].
Qed.

Lemma users_set_nonempty uid u us : users_set uid u us ≠ [].
Proof. destruct us as [|[k v] us]; simpl; [done|]. by case_bool_decide. Qed.

Lemma removeUser_room_id uid room : room_id (removeUser uid room).1 = room_id room.
Proof.
  unfold removeUser. destruct (users_get uid (users room)); [|done].
  case_bool_decide; [|done]. by destruct (users_delete uid (users room)) as [|[k v] rest].
Qed.

Lemma voteSong_keeps sid uid room :
  users (voteSong sid uid room).1 = users room ∧
  room_id (voteSong sid uid room).1 = room_id room.
Proof. unfold voteSong. by destruct (vote_in sid uid (queue room)). Qed.

Lemma skipCurrentSong_keeps room :
  users (skipCurrentSong room).1 = users room ∧
  room_id (skipCurrentSong room).1 = room_id room.
Proof. unfold skipCurrentSong. by destruct (getSortedQueue room). Qed.

Lemma guarded_store_ok s (h : WebSocketHandler) k :
  store_ok h → (∀ u r, store_ok (k u r).1) → store_ok (guarded s h k).1.1.
Proof.
  intros Hok Hk. unfold guarded. destruct (bound s) as [[u r]|]; [|done].
  specialize (Hk u r). by destruct (k u r).
Qed.

Lemma on_message_store_ok e ws data (h : WebSocketHandler) s :
  store_ok h → store_ok (on_message e ws data h s).1.1.
Proof.
  intros Hok. destruct data as [|m]; [done|]. unfold on_message.
  repeat case_bool_decide; try done.
  - unfold handleJoinRoom. destruct (rooms h !! roomCode m) as [room|] eqn:Hr; [|done].
    simpl. eapply store_ok_update; [done | done | apply users_set_nonempty | done].
  - simpl. by apply map_Forall_insert_2.
  - apply guarded_store_ok; [done|]. intros u r. unfold handleAddSong.
    destruct (rooms h !! r) as [room|] eqn:Hr; [|done].
    destruct (users_get u (users room)); [|done].
    destruct (song m); simpl.
    all: eapply store_ok_update; [done | done | | done].
    all: simpl; by destruct (Hok r room Hr).
  - apply guarded_store_ok; [done|]. intros u r. unfold handleVoteSong.
    destruct (rooms h !! r) as [room|] eqn:Hr; [|done].
    destruct (voteSong_keeps (songId m) u room) as [Hu Hid].
    destruct (voteSong (songId m) u room) as [room' []]; simpl in *.
    all: eapply store_ok_update; [done | done | | done].
    all: rewrite Hu; by destruct (Hok r room Hr).
  - apply guarded_store_ok; [done|]. intros u r. unfold handleSkipSong.
    destruct (rooms h !! r) as [room|] eqn:Hr; [|done].
    case_bool_decide; [done|].
    destruct (skipCurrentSong_keeps room) as [Hu Hid].
    destruct (skipCurrentSong room) as [room' [skipped|]]; simpl in *.
    all: eapply store_ok_update; [done | done | | done].
    all: rewrite Hu; by destruct (Hok r room Hr).
  - apply guarded_store_ok; [done|]. intros u r. unfold handleClearQueue.
    destruct (rooms h !! r) as [room|] eqn:Hr; [|done].
    case_bool_decide; [done|]. simpl.
    eapply store_ok_update; [done | done | | done].
    simpl. by destruct (Hok r room Hr).
  - apply guarded_store_ok; [done|]. intros u r. by rewrite handleGetRoomState_frame.
Qed.

Lemma on_close_store_ok e (h : WebSocketHandler) s :
  store_ok h → store_ok (on_close e h s).1.
Proof.
  intros Hok. unfold on_close. destruct (bound s) as [[u r]|]; [|done].
  unfold handleUserLeave. destruct (rooms h !! r) as [room|] eqn:Hr; [|done].
  pose proof (removeUser_room_id u room) as Hid.
  destruct (removeUser u room) as [room' newHost]; simpl in *.
  case_bool_decide as Hlen; simpl.
  - unfold store_ok. simpl. rewrite delete_insert_eq. by apply map_Forall_delete.
  - eapply store_ok_update; [done | done | | done].
    intros Hnil. apply Hlen. by rewrite Hnil.
Qed.

Lemma cleanupEmptyRooms_store_ok e (h : WebSocketHandler) :
  store_ok h → store_ok (cleanupEmptyRooms e h).
Proof.
  intros Hok code room. rewrite cleanup_rooms_lookup.
  destruct (rooms h !! code) as [room0|] eqn:Hr; simpl; [|done].
  destruct (empty_and_old _ room0); [done|]. intros ?. simplify_eq. by apply Hok.
Qed.

Lemma reachable_store_ok (h : WebSocketHandler) : reachable h → store_ok h.
Proof.
  induction 1 as [|e ws data h s _ IH|e h s _ IH|e h _ IH].
  - apply map_Forall_empty.
  - by apply on_message_store_ok.
  - by apply on_close_store_ok.
  - by apply cleanupEmptyRooms_store_ok.
Qed.

(** X18: in every state the handler can reach from its construction by
    frames, disconnects and sweeps, each registered room has at least one
    user and is registered under its own id.  So the sweep, which only
    removes rooms without users, never finds anything to remove there. *)
Theorem reachable_rooms_are_never_empty (h : WebSocketHandler) :
  reachable h →
  (∀ code room, rooms h !! code = Some room → users room ≠ [] ∧ room_id room = code) ∧
  ∀ e, cleanupEmptyRooms e h = h.
Proof.
  intros Hok%reachable_store_ok. split; [exact Hok|].
  intros e. apply handler_eq; [|done].
  apply map_eq. intros code. rewrite cleanup_rooms_lookup.
  destruct (rooms h !! code) as [room|] eqn:Hr; simpl; [|done].
  destruct (Hok code room Hr) as [Hu _].
  unfold empty_and_old. rewrite bool_decide_eq_false_2; [done|].
  by destruct (users room).
Qed.

Lemma reachable_rooms_are_never_empty_witness :
  let h := (on_close Scenario.env1
              (on_message Cases.env2 2%nat (Parsed (Scenario.join "ROOM1" "Bob"))
                 (on_message Scenario.env1 1%nat (Parsed (Cases.create "ROOM1" "Alice"))
                    constructor initial_session).1.1
                 initial_session).1.1
              {| userId := Some "u-carol"; roomId := Some "ROOM1" |}).1 in
  reachable h ∧
  (∀ code room, rooms h !! code = Some room → users room ≠ [] ∧ room_id room = code) ∧
  cleanupEmptyRooms Scenario.env_late h = h.
Proof.
  intros h.
  assert (Hreach : reachable h).
  { apply reach_close, reach_message, reach_message, reach_start. }
  split; [exact Hreach|].
  destruct (reachable_rooms_are_never_empty h Hreach) as [Hrooms Hsweep].
  split; [exact Hrooms | exact (Hsweep Scenario.env_late)].
Defined.

(** ** Messages in sequence *)

Lemma unbound_ignored e ws m (h : WebSocketHandler) s :
  bound s = None → type m ∈ session_scoped_types →
  on_message e ws (Parsed m) h s = (h, s, []).
Proof.
  intros Hb Ht.
  unfold session_scoped_types in Ht. rewrite !elem_of_cons, elem_of_nil in Ht.
  destruct Ht as [Ht | [Ht | [Ht | [Ht | [Ht | []]]]]].
  - rewrite on_message_add_song by done. by apply guarded_unbound.
  - rewrite on_message_vote_song by done. by apply guarded_unbound.
  - rewrite on_message_skip_song by done. by apply guarded_unbound.
  - rewrite on_message_clear_queue by done. by apply guarded_unbound.
  - rewrite on_message_get_room_state by done. by apply guarded_unbound.
Qed.

(** X19: creating a room under a free code with an unregistered id and then
    disconnecting puts the handler back exactly where it was: the room is
    deleted, the connection unregistered, and the disconnect writes
    nothing.  (The code and the id must be non-empty for the connection to
    count as bound.) *)
Theorem create_then_close_restores e e' ws m (h : WebSocketHandler) s :
  type m = "create_room" →
  roomCode m ≠ "" → uuidv4 e ≠ "" →
  rooms h !! roomCode m = None →
  userConnections h !! uuidv4 e = None →
  let res := on_message e ws (Parsed m) h s in
  on_close e' res.1.1 res.1.2 = (h, []).
Proof.
  intros Ht Hcode Hid Hfree Hnew. simpl.
  rewrite on_message_create_room by done.
  unfold handleCreateRoom, on_close, bound. simpl.
  rewrite !bool_decide_eq_true_2 by done. simpl.
  unfold handleUserLeave. simpl. rewrite lookup_insert_eq.
  unfold removeUser, new_Room, users_delete. simpl.
  rewrite !bool_decide_eq_true_2 by done.
  rewrite filter_cons_False by (simpl; intros Hne; by apply Hne).
  rewrite filter_nil. simpl. f_equal.
  apply handler_eq; simpl.
  - rewrite delete_insert_eq. by apply delete_insert_id.
  - by apply delete_insert_id.
Qed.

Lemma create_then_close_restores_witness :
  (rooms Scenario.h1 !! "ROOM3" = None ∧
   userConnections Scenario.h1 !! "u-carol" = None) ∧
  let res := on_message Scenario.env1 3%nat (Parsed (Cases.create "ROOM3" "Carol"))
               Scenario.h1 initial_session in
  on_close Cases.env2 res.1.1 res.1.2 = (Scenario.h1, []).
Proof.
  assert (Hfree : rooms Scenario.h1 !! "ROOM3" = None) by reflexivity.
  assert (Hnew : userConnections Scenario.h1 !! "u-carol" = None) by reflexivity.
  split; [by split|].
  apply (create_then_close_restores Scenario.env1 Cases.env2 3%nat
           (Cases.create "ROOM3" "Carol") Scenario.h1 initial_session eq_refl).
  - simpl. intros H. discriminate H.
  - simpl. intros H. discriminate H.
  - exact Hfree.
  - exact Hnew.
Defined.

(** X20: a create_room followed by a join_room for the same code from
    another connection, with a different id drawn: the joiner gets
    room_joined, then the creator's socket (if open) gets user_joined, and
    nothing else is written.  Both frames carry the same snapshot, which
    lists the creator, as host, and then the joiner. *)
Theorem create_then_join_notifies_creator e1 e2 ws1 ws2 m1 m2 (h : WebSocketHandler) s1 s2 :
  type m1 = "create_room" →
  type m2 = "join_room" →
  roomCode m2 = roomCode m1 →
  uuidv4 e2 ≠ uuidv4 e1 →
  readyOpen e2 ws1 = true →
  let h1 := (on_message e1 ws1 (Parsed m1) h s1).1.1 in
  let host := {| user_id := uuidv4 e1; user_name := userName m1; user_isHost := true |} in
  let joiner := {| user_id := uuidv4 e2; user_name := userName m2; user_isHost := false |} in
  ∃ snap,
    snap_id snap = roomCode m1 ∧
    snap_hostId snap = uuidv4 e1 ∧
    snap_users snap = [host; joiner] ∧
    (on_message e2 ws2 (Parsed m2) h1 s2).2 =
      [Send ws2 (room_joined (roomCode m1) (uuidv4 e2) snap);
       Send ws1 (user_joined (Some joiner) snap)].
Proof.
  intros Ht1 Ht2 Hcode Hid Hopen. simpl.
  rewrite (on_message_create_room e1 ws1 m1) by done.
  rewrite (on_message_join_room e2 ws2 m2) by done.
  unfold handleCreateRoom, handleJoinRoom. simpl.
  rewrite Hcode, lookup_insert_eq.
  assert (Hne : uuidv4 e1 ≠ uuidv4 e2) by congruence.
  exists (toJSON (addUser (uuidv4 e2) (userName m2)
                    (new_Room (roomCode m1) (uuidv4 e1) (userName m1) (now e1)))).
  split_and!; [done | done | |].
  - simpl. by rewrite bool_decide_eq_false_2.
  - simpl. f_equal. unfold broadcastToRoom. simpl. rewrite lookup_insert_eq. simpl.
    rewrite (bool_decide_eq_false_2 (uuidv4 e1 = uuidv4 e2)) by done. simpl.
    rewrite (bool_decide_eq_true_2 (Some (uuidv4 e1) ≠ Some (uuidv4 e2))) by congruence.
    rewrite lookup_insert_ne, lookup_insert_eq by done. rewrite Hopen.
    rewrite (bool_decide_eq_false_2 (Some (uuidv4 e2) ≠ Some (uuidv4 e2)))
      by (intros H; by apply H).
    simpl. rewrite ?(bool_decide_eq_false_2 (uuidv4 e1 = uuidv4 e2)) by done.
    simpl. rewrite ?(bool_decide_eq_true_2 (uuidv4 e2 = uuidv4 e2)) by done.
    reflexivity.
Qed.

Lemma create_then_join_notifies_creator_witness :
  (roomCode (Scenario.join "ROOM3" "Frank") = roomCode (Cases.create "ROOM3" "Carol") ∧
   uuidv4 Cases.env2 ≠ uuidv4 Scenario.env1 ∧
   readyOpen Cases.env2 3%nat = true) ∧
  let h1 := (on_message Scenario.env1 3%nat (Parsed (Cases.create "ROOM3" "Carol"))
               Scenario.h1 initial_session).1.1 in
  ∃ snap,
    snap_id snap = "ROOM3" ∧
    snap_hostId snap = "u-carol" ∧
    snap_users snap =
      [{| user_id := "u-carol"; user_name := "Carol"; user_isHost := true |};
       {| user_id := "u-frank"; user_name := "Frank"; user_isHost := false |}] ∧
    (on_message Cases.env2 5%nat (Parsed (Scenario.join "ROOM3" "Frank")) h1
       initial_session).2 =
      [Send 5%nat (room_joined "ROOM3" "u-frank" snap);
       Send 3%nat (user_joined
                     (Some {| user_id := "u-frank"; user_name := "Frank";
                              user_isHost := false |}) snap)].
Proof.
  assert (Hid : uuidv4 Cases.env2 ≠ uuidv4 Scenario.env1)
    by (simpl; intros H; discriminate H).
  split; [by split_and!|].
  exact (create_then_join_notifies_creator Scenario.env1 Cases.env2 3%nat 5%nat
           (Cases.create "ROOM3" "Carol") (Scenario.join "ROOM3" "Frank")
           Scenario.h1 initial_session initial_session
           eq_refl eq_refl eq_refl Hid eq_refl).
Defined.

(** ** The empty room code *)

(** X21: the empty string is accepted as a room code by create_room and
    join_room, but the connection that used it never counts as bound: its
    add_song, vote_song, skip_song, clear_queue and get_room_state frames
    are dropped without reply, and its disconnect removes neither the user
    from the room nor the connection from the registry. *)
Theorem empty_room_code_never_binds e ws m (h : WebSocketHandler) s :
  type m = "create_room" ∨ type m = "join_room" ∧ is_Some (rooms h !! "") →
  roomCode m = "" →
  let res := on_message e ws (Parsed m) h s in
  bound res.1.2 = None ∧
  is_Some (rooms res.1.1 !! "") ∧
  userConnections res.1.1 !! uuidv4 e = Some ws ∧
  (∀ e' ws' m', type m' ∈ session_scoped_types →
     on_message e' ws' (Parsed m') res.1.1 res.1.2 = (res.1.1, res.1.2, [])) ∧
  (∀ e', on_close e' res.1.1 res.1.2 = (res.1.1, [])).
Proof.
  intros Ht Hcode res.
  assert (Hs : res.1.2 = {| userId := Some (uuidv4 e); roomId := Some "" |} ∧
               is_Some (rooms res.1.1 !! "") ∧
               userConnections res.1.1 !! uuidv4 e = Some ws).
  { subst res. destruct Ht as [Ht | [Ht [room Hr]]].
    - rewrite on_message_create_room by done. unfold handleCreateRoom. rewrite Hcode.
      simpl. split_and!; [done | | apply lookup_insert_eq].
      rewrite lookup_insert_eq. eauto.
    - rewrite on_message_join_room by done. unfold handleJoinRoom. rewrite Hcode, Hr.
      simpl. split_and!; [done | | apply lookup_insert_eq].
      rewrite lookup_insert_eq. eauto. }
  destruct Hs as (Hs & Hroom & Hconn).
  assert (Hb : bound res.1.2 = None) by (rewrite Hs; apply bound_empty_room_code).
  split_and!; [done..| |].
  - intros e' ws' m' Ht'. by apply unbound_ignored.
  - intros e'. unfold on_close. by rewrite Hb.
Qed.

Lemma empty_room_code_never_binds_witness :
  (type (Cases.create "" "Carol") = "create_room" ∧
   roomCode (Cases.create "" "Carol") = "") ∧
  let res := on_message Scenario.env1 3%nat (Parsed (Cases.create "" "Carol"))
               Scenario.h1 initial_session in
  bound res.1.2 = None ∧
  userConnections res.1.1 !! "u-carol" = Some 3%nat ∧
  on_message Cases.env2 3%nat (Parsed (Scenario.msg "get_room_state")) res.1.1 res.1.2
    = (res.1.1, res.1.2, []) ∧
  on_close Cases.env2 res.1.1 res.1.2 = (res.1.1, []).
Proof.
  split; [by split|].
  destruct (empty_room_code_never_binds Scenario.env1 3%nat (Cases.create "" "Carol")
              Scenario.h1 initial_session (or_introl eq_refl) eq_refl)
    as (Hb & _ & Hconn & Hdrop & Hclose).
  split_and!; [exact Hb | exact Hconn | | exact (Hclose Cases.env2)].
  apply (Hdrop Cases.env2 3%nat (Scenario.msg "get_room_state")).
  unfold session_scoped_types. simpl. rewrite !elem_of_cons. tauto.
Defined.

(** ** Broadcast *)

Lemma length_omap_le {A B} (f : A → option B) (l : list A) :
  (length (omap f l) ≤ length l)%nat.
Proof.
  induction l as [|x l IH]; simpl; [done|].
  destruct (f x); simpl; [apply le_n_S | apply le_S]; exact IH.
Qed.

(** X22: a broadcast to a code that names no room writes nothing; to a
    registered room it writes at most one frame per user of the room; and
    every frame it writes is the given message, to an open socket. *)
Theorem broadcast_is_bounded_by_the_room e (h : WebSocketHandler) rid message exclude :
  (rooms h !! rid = None → broadcastToRoom e h rid message exclude = []) ∧
  (∀ room, rooms h !! rid = Some room →
     (length (broadcastToRoom e h rid message exclude) ≤ length (users room))%nat) ∧
  Forall (λ a, ∃ w, a = Send w message ∧ readyOpen e w = true)
         (broadcastToRoom e h rid message exclude).
Proof.
  split_and!.
  - intros Hr. unfold broadcastToRoom. by rewrite Hr.
  - intros room Hr. unfold broadcastToRoom. rewrite Hr. apply length_omap_le.
  - apply Forall_forall. intros a.
    destruct (rooms h !! rid) as [room|] eqn:Hr.
    + rewrite elem_of_broadcastToRoom by done.
      intros (k & u & w & _ & _ & _ & Ho & ->). eauto.
    + unfold broadcastToRoom. rewrite Hr. by intros ?%elem_of_nil.
Qed.
